(** * hypebot: the dispatch core (hypebot/hypecore.py)

    A shallow embedding of the request-confirmation tracker, of the reply
    path and of the reload trigger of [hypecore.py], with the properties
    the specification states about them, and of the part of the Discord
    interface ([interfaces/discord_interface.py]) that the replies go
    through.

    Conventions of the embedding.
    - Python [str] is [string]; [str.split] and [str.lower] are written out
      below.  [str.lower] is given on the ASCII range: the only code points
      whose lower-case form begins with the letter y are "y" and "Y", which
      is all the default parse predicate looks at.
    - A reading of [time.time()] is a rational number of seconds ([Qc]), as
      every float is; it is an argument [now] of the operation that reads
      the clock.  Readings of the epoch clock lie within a factor of two of
      one another, so the float difference of two of them is the exact one.
    - A dict is a [gmap string value].  The tracker stores the caller's dict
      itself, not a copy, so dicts live in a heap indexed by references and
      [request_details] is a reference; a reference the heap has no entry
      for names an empty dict.
    - Output is a trace of events: what [RequestTracker] hands to its
      [reply_fn], the actions it invokes, and what [Core] logs, sends to
      the chat interface or schedules on the runner.
    - The callbacks ([reply_fn], [action_fn], [parse_fn]) are taken to
      return and to leave the tracker and the dicts alone: a reply and an
      action are recorded in the trace, a parse function is a boolean
      function of the reply text. *)

From stdpp Require Import gmap strings list fin_maps numbers.
From Stdlib Require Import QArith Qcanon.

Local Open Scope Z_scope.
Set Warnings "-register-all".

(** ** Python strings *)

Module PyStr.

(** The line feed, ["\n"] in the source. *)
Definition LF : Ascii.ascii := Ascii.ascii_of_nat 10.

(** The colon, [':'] in the source. *)
Definition COLON : Ascii.ascii := Ascii.ascii_of_nat 58.

(** [s.split(sep)] for a one-character separator: never an empty list. *)
Fixpoint split (sep : Ascii.ascii) (s : string) : list string :=
  match s with
  | EmptyString => [EmptyString]
  | String c rest =>
      if Ascii.eqb c sep then EmptyString :: split sep rest
      else match split sep rest with
           | [] => [String c EmptyString]
           | part :: parts => String c part :: parts
           end
  end.

(** [sep.join(parts)] for a one-character separator. *)
Fixpoint join (sep : Ascii.ascii) (parts : list string) : string :=
  match parts with
  | [] => EmptyString
  | [part] => part
  | part :: parts' => part +:+ String sep (join sep parts')
  end.

(** [s.split(sep)[0]] *)
Definition split_first (sep : Ascii.ascii) (s : string) : string :=
  match split sep s with
  | [] => EmptyString
  | part :: _ => part
  end.

Definition is_upper (c : Ascii.ascii) : bool :=
  let n := Ascii.N_of_ascii c in ((65 <=? n) && (n <=? 90))%N.

Definition lower_char (c : Ascii.ascii) : Ascii.ascii :=
  if is_upper c then Ascii.ascii_of_N (Ascii.N_of_ascii c + 32) else c.

(** [s.lower()] *)
Fixpoint lower (s : string) : string :=
  match s with
  | EmptyString => EmptyString
  | String c rest => String (lower_char c) (lower rest)
  end.

(** [s.startswith(p)] *)
Fixpoint startswith (s p : string) : bool :=
  match p, s with
  | EmptyString, _ => true
  | String _ _, EmptyString => false
  | String a p', String b s' => Ascii.eqb a b && startswith s' p'
  end.

(** A character occurs in a string. *)
Fixpoint occurs (c : Ascii.ascii) (s : string) : Prop :=
  match s with
  | EmptyString => False
  | String a rest => a = c ∨ occurs c rest
  end.

End PyStr.

(** ** Messages *)

(** [_MessageType]: a text or a list, nested as [_AppendToMessage] allows. *)
Inductive message : Type :=
  | MText (text : string)
  | MList (items : list message).

(** [types.Message]: the repeated field [messages], one text per entry. *)
Definition Message : Type := list string.

(** [_AppendToMessage]: [msg] is mutated in place in the source; here the
    extended message is returned. *)
Fixpoint _AppendToMessage (msg : Message) (response : message) {struct response}
  : Message :=
  match response with
  | MText text => msg ++ PyStr.split PyStr.LF text
  | MList items =>
      (fix each (rest : list message) (msg : Message) : Message :=
         match rest with
         | [] => msg
         | line :: rest' => each rest' (_AppendToMessage msg line)
         end) items msg
  end.

Definition _MakeMessage (response : message) : Message :=
  _AppendToMessage [] response.

(** Truthiness of an optional message: [None], [''] and [[]] are falsy. *)
Definition msg_truthy (msg : option message) : bool :=
  match msg with
  | None => false
  | Some (MText text) => negb (String.eqb text EmptyString)
  | Some (MList items) => negb (Nat.eqb (length items) 0)
  end.

(** [l[:n]] for a Python integer [n] (a negative [n] counts from the end). *)
Definition py_slice_to {A} (l : list A) (n : Z) : list A :=
  if 0 <=? n then take (Z.to_nat n) l
  else take (Z.to_nat (Z.of_nat (length l) + n)) l.

(** ** RequestTracker *)

Module RequestTracker.

(** [types.User]: a nick, compared by value and used as a key. *)
Definition User : Type := string.

(** A callable handed in as [action_fn], known by its identity: what it does
    when invoked is not the tracker's business, that it is invoked is. *)
Definition Action : Type := nat.

(** A reference to a dict object. *)
Definition loc : Type := nat.

(** The Python values a [request_details] dict holds. *)
Inductive value : Type :=
  | VNone
  | VStr (s : string)
  | VFloat (x : Qc)
  | VAction (f : Action)
  | VParse (f : string → bool).

Abbreviation dict := (gmap string value).

(** What the tracker does to the outside: a call of [reply_fn] and a call of
    a stored action, with the arguments passed. *)
Inductive event : Type :=
  | EReply (user : User) (msg : value)
  | ECall (f : Action) (user : User) (request_details : loc).

Inductive exn : Type :=
  | KeyError (key : string)
  | TypeError.

Inductive result (A : Type) : Type :=
  | Ok (a : A)
  | Raise (e : exn).
Arguments Ok {A} a.
Arguments Raise {A} e.

(** The dict objects, the tracker's [_pending_requests] (user to the dict
    stored for them) and the events so far.  Every operation of the tracker
    runs under [_pending_requests_lock] from its first access to its last,
    so an operation is one step on this state.  The clock is read before
    the lock is taken: the readings of successive steps need not increase,
    and nothing below assumes they do. *)
Record state : Type := State {
  heap : gmap loc dict;
  _pending_requests : gmap User loc;
  trace : list event;
}.

Definition _REQUEST_TIMEOUT_SEC : Qc := Qc_of_Z 60.

(** The dict a reference names. *)
Definition heap_at (st : state) (d : loc) : dict := default ∅ (heap st !! d).

(** State and exceptions: an exception keeps the state reached so far. *)
Definition M (A : Type) : Type := state → result A * state.

#[global] Instance M_ret : MRet M := λ A a st, (Ok a, st).

#[global] Instance M_bind : MBind M := λ A B f m st,
  match m st with
  | (Ok a, st') => f a st'
  | (Raise e, st') => (Raise e, st')
  end.

Definition raise {A} (e : exn) : M A := λ st, (Raise e, st).

(** [self._pending_requests.get(user)] *)
Definition pending_get (user : User) : M (option loc) := λ st,
  (Ok (_pending_requests st !! user), st).

(** [self._pending_requests[user] = request_details] *)
Definition pending_set (user : User) (request_details : loc) : M unit := λ st,
  (Ok tt, State (heap st) (<[user := request_details]> (_pending_requests st))
                (trace st)).

(** [del self._pending_requests[user]] *)
Definition pending_del (user : User) : M unit := λ st,
  match _pending_requests st !! user with
  | Some _ => (Ok tt, State (heap st) (delete user (_pending_requests st))
                            (trace st))
  | None => (Raise (KeyError user), st)
  end.

(** [d[key]] on the dict a reference names. *)
Definition getitem (d : loc) (key : string) : M value := λ st,
  match heap_at st d !! key with
  | Some v => (Ok v, st)
  | None => (Raise (KeyError key), st)
  end.

(** [d.get(key, dflt)] *)
Definition get_default (d : loc) (key : string) (dflt : value) : M value :=
  λ st, (Ok (default dflt (heap_at st d !! key)), st).

(** [d[key] = v]: the dict object itself changes, for all who hold it. *)
Definition setitem (d : loc) (key : string) (v : value) : M unit := λ st,
  (Ok tt, State (<[d := <[key := v]> (heap_at st d)]> (heap st))
                (_pending_requests st) (trace st)).

(** Truthiness of a dict: not empty. *)
Definition dict_truthy (d : loc) : M bool := λ st,
  (Ok (negb (Nat.eqb (size (heap_at st d)) 0)), st).

Definition emit (e : event) : M unit := λ st,
  (Ok tt, State (heap st) (_pending_requests st) (trace st ++ [e])).

(** [self._reply_fn(user, msg)] *)
Definition _reply_fn (user : User) (msg : value) : M unit :=
  emit (EReply user msg).

(** [now - v] *)
Definition as_float (v : value) : M Qc :=
  match v with
  | VFloat x => mret x
  | _ => raise TypeError
  end.

(** [f(user_msg)], then its truth value. *)
Definition call_parse (f : value) (user_msg : string) : M bool :=
  match f with
  | VParse p => mret (p user_msg)
  | _ => raise TypeError
  end.

(** [f(user, request_details)] *)
Definition call_action (f : value) (user : User) (request_details : loc)
  : M unit :=
  match f with
  | VAction a => emit (ECall a user request_details)
  | _ => raise TypeError
  end.

(** [lambda x: x.lower().startswith('y')] *)
Definition default_parse_fn (x : string) : bool :=
  PyStr.startswith (PyStr.lower x) "y".

Definition HasPendingRequest (user : User) : M bool := λ st,
  (Ok (bool_decide (is_Some (_pending_requests st !! user))), st).

Definition RequestConfirmation (now : Qc) (user : User) (summary : string)
    (request_details : loc) (action_fn : Action)
    (parse_fn : option (string → bool)) : M unit :=
  let store : M unit :=
    setitem request_details "timestamp" (VFloat now);;
    setitem request_details "action" (VAction action_fn);;
    let parse_fn :=
      match parse_fn with
      | Some f => f
      | None => default_parse_fn
      end in
    setitem request_details "parse" (VParse parse_fn);;
    pending_set user request_details;;
    _reply_fn user (VStr ("Confirm " +:+ summary +:+ "?")) in
  previous_request ← pending_get user;
  match previous_request with
  | None => store
  | Some previous_request =>
      nonempty ← dict_truthy previous_request;
      if nonempty : bool then
        timestamp ← getitem previous_request "timestamp" ≫= as_float;
        if bool_decide (now - timestamp < _REQUEST_TIMEOUT_SEC)%Qc then
          _reply_fn user
            (VStr "Confirm prior request before submitting another.")
        else
          pending_del user;;
          store
      else store
  end.

Definition ResolveRequest (now : Qc) (user : User) (user_msg : string)
  : M unit :=
  request_details ← pending_get user;
  match request_details with
  | None => mret tt
  | Some request_details =>
      nonempty ← dict_truthy request_details;
      if negb nonempty then mret tt
      else
        confirmed ← getitem request_details "parse"
                    ≫= λ parse, call_parse parse user_msg;
        (if negb confirmed then
           _reply_fn user (VStr "Cancelling request.")
         else
           timestamp ← getitem request_details "timestamp" ≫= as_float;
           if bool_decide (_REQUEST_TIMEOUT_SEC ≤ now - timestamp)%Qc then
             _reply_fn user (VStr "You took too long to confirm, try again.")
           else
             (get_default request_details "action_text"
                          (VStr "Confirmation accepted.")
              ≫= _reply_fn user);;
             action ← getitem request_details "action";
             call_action action user request_details);;
        pending_del user
  end.

(** One call of [RequestConfirmation], as data. *)
Record call : Type := Call {
  c_now : Qc;
  c_summary : string;
  c_request_details : loc;
  c_action_fn : Action;
  c_parse_fn : option (string → bool);
}.

Definition request (user : User) (c : call) : M unit :=
  RequestConfirmation (c_now c) user (c_summary c) (c_request_details c)
                      (c_action_fn c) (c_parse_fn c).

(** A sequence of [RequestConfirmation] calls for one user, in order. *)
Fixpoint requests (user : User) (cs : list call) : M unit :=
  match cs with
  | [] => mret tt
  | c :: cs' => request user c;; requests user cs'
  end.

(** The dict stored for a user carries the three fields the tracker wrote:
    a clock reading, an action and a parse function. *)
Definition stored (st : state) (user : User) (d : loc)
    (timestamp : Qc) (action : Action) (parse : string → bool) : Prop :=
  _pending_requests st !! user = Some d ∧
  heap_at st d !! "timestamp" = Some (VFloat timestamp) ∧
  heap_at st d !! "action" = Some (VAction action) ∧
  heap_at st d !! "parse" = Some (VParse parse).

(** The invariant of the tracker: every stored dict is such a request. *)
Definition wf (st : state) : Prop :=
  ∀ user d, _pending_requests st !! user = Some d →
    ∃ timestamp action parse, stored st user d timestamp action parse.

(** The state with one more event. *)
Definition with_event (st : state) (e : event) : state :=
  State (heap st) (_pending_requests st) (trace st ++ [e]).

(** Nothing of the user stands in the way of a new request at [now]: no
    dict is stored for them, or the one stored has timed out. *)
Definition vacant (st : state) (user : User) (now : Qc) : Prop :=
  _pending_requests st !! user = None ∨
  ∃ d timestamp,
    _pending_requests st !! user = Some d ∧
    heap_at st d !! "timestamp" = Some (VFloat timestamp) ∧
    (_REQUEST_TIMEOUT_SEC ≤ now - timestamp)%Qc.

(** The parse function a call ends up with. *)
Definition parse_of (parse_fn : option (string → bool)) : string → bool :=
  default default_parse_fn parse_fn.

(** The dict of a request once the tracker has written its three fields. *)
Definition filled (d : dict) (now : Qc) (action_fn : Action)
    (parse_fn : option (string → bool)) : dict :=
  <["parse" := VParse (parse_of parse_fn)]>
    (<["action" := VAction action_fn]> (<["timestamp" := VFloat now]> d)).

(** The state after a call that stores its request. *)
Definition accepted (st : state) (now : Qc) (user : User) (summary : string)
    (request_details : loc) (action_fn : Action)
    (parse_fn : option (string → bool)) : state :=
  State (<[request_details :=
             filled (heap_at st request_details) now action_fn parse_fn]>
           (heap st))
        (<[user := request_details]> (_pending_requests st))
        (trace st ++ [EReply user (VStr ("Confirm " +:+ summary +:+ "?"))]).

(** The reply to a call that is turned down. *)
Definition rejection (user : User) : event :=
  EReply user (VStr "Confirm prior request before submitting another.").

(** What [ResolveRequest] does for a request with the given fields. *)
Definition resolve_events (d : dict) (timestamp : Qc) (action : Action)
    (parse : string → bool) (now : Qc) (user : User) (request_details : loc)
    (user_msg : string) : list event :=
  if negb (parse user_msg) then [EReply user (VStr "Cancelling request.")]
  else if bool_decide (_REQUEST_TIMEOUT_SEC ≤ now - timestamp)%Qc then
    [EReply user (VStr "You took too long to confirm, try again.")]
  else
    [EReply user (default (VStr "Confirmation accepted.") (d !! "action_text"));
     ECall action user request_details].

(** The invocations of actions in a trace, in order. *)
Definition calls (tr : list event) : list (Action * User * loc) :=
  flat_map (λ e, match e with
                 | ECall f user d => [(f, user, d)]
                 | EReply _ _ => []
                 end) tr.

(** The operations of the tracker, as steps. *)
Inductive op : Type :=
  | OpRequest (user : User) (c : call)
  | OpResolve (now : Qc) (user : User) (user_msg : string).

Definition run_op (o : op) : M unit :=
  match o with
  | OpRequest user c => request user c
  | OpResolve now user user_msg => ResolveRequest now user user_msg
  end.

(** The states the tracker reaches from its constructor ([__init__]: no
    pending request, whatever dicts exist). *)
Inductive reachable : state → Prop :=
  | reachable_init h : reachable (State h ∅ [])
  | reachable_step st o : reachable st → reachable (run_op o st).2.

End RequestTracker.

(** ** Core: the reply path and the reload trigger *)

Module Core.

(** Modelled from the spec: the [Channel] message of
    [hypebot.protos.channel_pb2], whose declaration is not among the
    sources: an [id], a [visibility] (PUBLIC or PRIVATE) and a display
    [name].  A [Channel] object is always truthy. *)
Inductive Visibility : Type := PUBLIC | PRIVATE.

#[global] Instance Visibility_eq_dec : EqDecision Visibility.
Proof. solve_decision. Defined.

Record Channel : Type := {
  id : string;
  visibility : Visibility;
  name : string;
}.

(** [types.Target]: a user given as a bare string, or a [Channel]. *)
Inductive Target : Type :=
  | TUser (user : string)
  | TChannel (channel : Channel).

(** An object held in an attribute of the core: its identity, the name of
    its class and whether [hasattr(obj, 'ReloadData')]. *)
Record Obj : Type := {
  oid : nat;
  class_name : string;
  has_ReloadData : bool;
}.

(** What the core does to the outside. *)
Inductive event : Type :=
  | Log (log_level : Z) (msg : option message)
  | LogNoChannel (msg : message)
  | LogInfo (text : string)
  | SendMessage (channel : Channel) (message : Message)
  | FlushCache
  | RunAsync (obj : Obj).

(** [absl.logging.INFO] *)
Definition INFO : Z := 0.

(** Truthiness of an optional target: [None] and [''] are falsy. *)
Definition target_truthy (channel : option Target) : bool :=
  match channel with
  | None => false
  | Some (TUser user) => negb (String.eqb user EmptyString)
  | Some (TChannel _) => true
  end.

(** Truthiness of an optional user. *)
Definition user_truthy (user : option string) : bool :=
  match user with
  | None => false
  | Some user => negb (String.eqb user EmptyString)
  end.

(** [Core.Reply].  The [exc_info] flag of the log call only decorates the
    log record and is left out. *)
Definition Reply (channel : option Target) (msg : option message)
    (default_channel : option Target) (limit_lines : bool)
    (max_public_lines : Z) (user : option string) (log : bool)
    (log_level : Z) : list event :=
  match msg with
  | None => []
  | Some text_msg =>
      if negb (msg_truthy msg) then []
      else
        (if log then [Log log_level (Some text_msg)] else []) ++
        let channel :=
          if target_truthy channel then channel else default_channel in
        match channel with
        | None => [LogNoChannel text_msg]
        | Some target =>
            if negb (target_truthy channel) then [LogNoChannel text_msg]
            else
              let channel :=
                match target with
                | TChannel c => c
                | TUser s =>
                    {| id := PyStr.split_first PyStr.COLON s;
                       visibility := PRIVATE;
                       name := s |}
                end in
              let send_all := [SendMessage channel (_MakeMessage text_msg)] in
              if limit_lines && bool_decide (visibility channel = PUBLIC) then
                match text_msg with
                | MList items =>
                    let send_truncated :=
                      [SendMessage channel
                         (_MakeMessage
                            (MList (py_slice_to items max_public_lines
                                    ++ [MText "..."])))] in
                    if bool_decide (max_public_lines < Z.of_nat (length items))
                    then
                      match user with
                      | Some u =>
                          if user_truthy user then
                            [SendMessage channel
                               (_MakeMessage
                                  (MText "It's long so I sent it privately."));
                             SendMessage
                               {| id := u; visibility := PRIVATE; name := u |}
                               (_MakeMessage text_msg)]
                          else send_truncated
                      | None => send_truncated
                      end
                    else send_all
                | MText _ => send_all
                end
              else send_all
        end
  end.

(** [OutputUtil], over the [output_fn] it was built with. *)
Definition Output (output_fn : option Target → option message → list event)
    (channel : option Target) (message : option message) : list event :=
  output_fn channel message.

Definition LogAndOutput
    (output_fn : option Target → option message → list event)
    (log_level : Z) (channel : option Target) (message : option message)
  : list event :=
  Log log_level message :: Output output_fn channel message.

(** [self.output_util = OutputUtil(self.Reply)]: [Reply] with the defaults
    of its keyword arguments. *)
Definition core_output_fn (channel : option Target) (msg : option message)
  : list event :=
  Reply channel msg None false 6 None false INFO.

(** The part of the core [ReloadData] looks at: whether the runner is idle
    and the attributes of the object, in order. *)
Record core : Type := {
  runner_IsIdle : bool;
  __dict__ : list (string * Obj);
}.

(** [Core.ReloadData]: the value returned and the events. *)
Definition ReloadData (self : core) : bool * list event :=
  if negb (runner_IsIdle self) then
    (false, [LogInfo "Runner not idle, can not trigger reload."])
  else
    (true,
     FlushCache ::
     flat_map (λ attr : string * Obj,
                 let obj := attr.2 in
                 if has_ReloadData obj then
                   [LogInfo ("Triggering reload for: " +:+ class_name obj);
                    RunAsync obj]
                 else [])
              (__dict__ self)).

(** The reading of the truncation rule in the specification: the limit is
    on the number of flattened lines, and what is kept is the first
    [max_public_lines] of them and a marker line. *)
Definition spec_truncated_lines (limit_lines : bool) (v : Visibility)
    (max_public_lines : nat) (msg : message) : Message :=
  let lines := _MakeMessage msg in
  if limit_lines && bool_decide (v = PUBLIC)
     && bool_decide (max_public_lines < length lines)%nat
  then take max_public_lines lines ++ ["..."]
  else lines.

(** The reading of legacy normalisation in the specification: a bare string
    always becomes a private channel. *)
Definition spec_normalized (s : string) : Channel :=
  {| id := PyStr.split_first PyStr.COLON s; visibility := PRIVATE; name := s |}.

(** A line of text: no line feed in it. *)
Definition single_line (s : string) : Prop := ¬ PyStr.occurs PyStr.LF s.

(** Where [Reply] sends: [channel or default_channel], a bare string made
    a private channel; nowhere when both are falsy. *)
Definition destination (channel default_channel : option Target)
  : option Channel :=
  match (if target_truthy channel then channel else default_channel) with
  | Some (TChannel c) => Some c
  | Some (TUser s) =>
      if String.eqb s EmptyString then None
      else Some {| id := PyStr.split_first PyStr.COLON s;
                   visibility := PRIVATE;
                   name := s |}
  | None => None
  end.

(** The test [Reply] makes before it cuts a message short: on the number of
    items of a list, not on the number of lines. *)
Definition too_long (limit_lines : bool) (c : Channel) (msg : message)
    (max_public_lines : Z) : bool :=
  limit_lines && bool_decide (visibility c = PUBLIC) &&
  match msg with
  | MList items => bool_decide (max_public_lines < Z.of_nat (length items))
  | MText _ => false
  end.

(** The log record [Reply] writes first when asked to. *)
Definition logged (log : bool) (log_level : Z) (msg : message) : list event :=
  if log then [Log log_level (Some msg)] else [].

(** The objects handed to [RunAsync], in order. *)
Definition scheduled (events : list event) : list Obj :=
  flat_map (λ e, match e with RunAsync obj => [obj] | _ => [] end) events.

(** The events that are sends. *)
Definition is_send (e : event) : bool :=
  match e with
  | SendMessage _ _ => true
  | _ => false
  end.

(** The events that are log records. *)
Definition is_log (e : event) : bool :=
  match e with
  | Log _ _ | LogNoChannel _ | LogInfo _ => true
  | _ => false
  end.

End Core.

(** ** More of hypecore.py *)

(** The argument of [_GetAlternateTextList]: a text or a list of texts. *)
Inductive TextOrList : Type :=
  | OneText (value : string)
  | TextList (value : list string).

(** [_GetAlternateTextList]: newlines expanded to separate list items. *)
Definition _GetAlternateTextList (value : TextOrList) : list string :=
  match value with
  | OneText text => PyStr.split PyStr.LF text
  | TextList texts => concat (PyStr.split PyStr.LF <$> texts)
  end.

(** The same value, as a message for [_MakeMessage]. *)
Definition as_message (value : TextOrList) : message :=
  match value with
  | OneText text => MText text
  | TextList texts => MList (MText <$> texts)
  end.

(** The user an event of the tracker concerns. *)
Definition event_user (e : RequestTracker.event) : RequestTracker.User :=
  match e with
  | RequestTracker.EReply user _ => user
  | RequestTracker.ECall _ user _ => user
  end.

(** [self.request_tracker = RequestTracker(self.Reply)] in [Core.__init__]:
    the tracker's [reply_fn] is [Reply] with the user as the channel and
    the defaults of the keyword arguments. *)
Definition core_reply_fn (user : string) (msg : option message)
  : list Core.event :=
  Core.Reply (Some (Core.TUser user)) msg None false 6 None false Core.INFO.

(** What the replies in a trace of the tracker make the core do, for the
    replies that are texts or [None]. *)
Definition delivered (tr : list RequestTracker.event) : list Core.event :=
  flat_map (λ e, match e with
                 | RequestTracker.EReply user (RequestTracker.VStr text) =>
                     core_reply_fn user (Some (MText text))
                 | RequestTracker.EReply user RequestTracker.VNone =>
                     core_reply_fn user None
                 | _ => []
                 end) tr.

(** ** The Discord interface (hypebot/interfaces/discord_interface.py) *)

Module Discord.

(** A [discord.Member], as far as the interface reads it. *)
Record Member : Type := {
  member_name : string;
  member_bot : bool;
}.

Record Server : Type := {
  members : list Member;
}.

(** A channel object of the client library. *)
Record DiscordChannel : Type := {
  channel_id : string;
  channel_name : string;
}.

(** The client: its lookup of a channel by id and the servers it is
    connected to, in the order it iterates them. *)
Record Client : Type := {
  get_channel : string → option DiscordChannel;
  servers : list Server;
}.

(** An entry of [message.messages]: a text, or a card, of which only the
    alternate text is read. *)
Inductive entry : Type :=
  | EText (text : string)
  | ECard (alternate_text : list string).

(** What [_SendMessage] is handed as its channel. *)
Inductive Destination : Type :=
  | ToChannel (channel : DiscordChannel)
  | ToMember (member : Member).

(** What the interface does: calls on the user tracker, and the
    [_SendMessage] tasks it puts on the client's loop. *)
Inductive event : Type :=
  | AddBot (nick : string)
  | AddHuman (nick : string)
  | SendTask (channel : Destination) (message : string).

(** [discord.utils.find(lambda m: m.name == user, members)] *)
Definition find_member (user : string) (members : list Member)
  : option Member :=
  List.find (λ m, String.eqb (member_name m) user) members.

(** [_FindDiscordUser]: the loop over the servers. *)
Fixpoint find_in_servers (user : string) (servers : list Server)
  : option Member :=
  match servers with
  | [] => None
  | server :: rest =>
      match find_member user (members server) with
      | Some member => Some member
      | None => find_in_servers user rest
      end
  end.

Definition _FindDiscordUser (self : Client) (user : string) : option Member :=
  find_in_servers user (servers self).

(** The lines [SendMessage] aggregates. *)
Definition text_messages (message : list entry) : list string :=
  flat_map (λ msg, match msg with
                   | ECard alternate_text => alternate_text
                   | EText text => [text]
                   end) message.

Definition SendMessage (self : Client) (channel : Core.Channel)
    (message : list entry) : list event :=
  let disco_channel :=
    match get_channel self (Core.id channel) with
    | Some c => Some (ToChannel c)
    | None => ToMember <$> _FindDiscordUser self (Core.id channel)
    end in
  match disco_channel with
  | None => []
  | Some disco_channel =>
      [SendTask disco_channel (PyStr.join PyStr.LF (text_messages message))]
  end.

(** [AddBot] or [AddHuman], as the member is one or the other. *)
Definition track (nick : string) (member : Member) : event :=
  if member_bot member then AddBot nick else AddHuman nick.

Definition Who (self : Client) (user : string) : list event :=
  flat_map (λ server,
              flat_map (λ member,
                          if String.eqb (member_name member) user
                          then [track user member] else [])
                       (members server))
           (servers self).

Definition WhoAll (self : Client) : list event :=
  flat_map (λ server,
              flat_map (λ member, [track (member_name member) member])
                       (members server))
           (servers self).

(** The handlers [on_ready] and [on_member_join]. *)
Definition on_ready (self : Client) : list event := WhoAll self.

Definition on_member_join (member : Member) : list event :=
  [track (member_name member) member].

(** All members of all servers, in order. *)
Definition all_members (self : Client) : list Member :=
  flat_map members (servers self).

(** The nick a call on the user tracker names. *)
Definition tracked_nick (e : event) : option string :=
  match e with
  | AddBot nick | AddHuman nick => Some nick
  | SendTask _ _ => None
  end.

(** A message of the core, as the entries the interface reads. *)
Definition entries (message : Message) : list entry := EText <$> message.

(** What the interface does with the sends among the events of the core. *)
Definition transport (self : Client) (events : list Core.event) : list event :=
  flat_map (λ e, match e with
                 | Core.SendMessage channel message =>
                     SendMessage self channel (entries message)
                 | _ => []
                 end) events.

End Discord.

(** Objects of the core are compared by identity and content. *)
#[global] Instance Obj_eq_dec : EqDecision Core.Obj.
Proof. solve_decision. Defined.

(** How often an object is handed to [RunAsync]. *)
Definition times_scheduled (obj : Core.Obj) (events : list Core.event) : nat :=
  length (filter (λ o, o = obj) (Core.scheduled events)).

(** How many attributes of the core hold an object. *)
Definition times_held (obj : Core.Obj) (self : Core.core) : nat :=
  length (filter (λ attr : string * Core.Obj, attr.2 = obj)
                 (Core.__dict__ self)).

(** * Properties *)

(** ** Strings *)

Section strings.
Import PyStr.

Lemma split_nonempty sep s : split sep s ≠ [].
Proof. destruct s as [|c s]; simpl; [done|]. repeat case_match; done. Qed.

(** A string without the separator is one part. *)
Lemma split_single sep s : ¬ occurs sep s → split sep s = [s].
Proof.
  induction s as [|c s IH]; simpl; [done|]. intros Hno.
  destruct (Ascii.eqb_spec c sep) as [->|Hne]; [tauto|].
  rewrite IH by tauto. done.
Qed.

(** A string with the separator is at least two parts. *)
Lemma split_multiple sep s : occurs sep s → (2 ≤ length (split sep s))%nat.
Proof.
  induction s as [|c s IH]; simpl; [done|]. intros Hocc.
  destruct (Ascii.eqb_spec c sep) as [->|Hne].
  - pose proof (split_nonempty sep s). destruct (split sep s); simpl; [done|lia].
  - destruct Hocc as [?|Hocc]; [done|]. specialize (IH Hocc).
    destruct (split sep s); simpl in *; lia.
Qed.

(** No part holds the separator. *)
Lemma split_parts sep s part : part ∈ split sep s → ¬ occurs sep part.
Proof.
  revert part. induction s as [|c s IH]; simpl; intros part Hin.
  - apply list_elem_of_singleton in Hin as ->. simpl. tauto.
  - destruct (Ascii.eqb_spec c sep) as [->|Hne].
    + apply elem_of_cons in Hin as [->|Hin]; [simpl; tauto|by apply IH].
    + destruct (split sep s) as [|p ps] eqn:E.
      * apply list_elem_of_singleton in Hin as ->. simpl. tauto.
      * apply elem_of_cons in Hin as [->|Hin].
        -- simpl. intros [?|?]; [done|]. apply (IH p); [left|done].
        -- apply IH. by right.
Qed.

(** Joining the parts gives the string back: nothing is lost or reordered. *)
Lemma join_split sep s : join sep (split sep s) = s.
Proof.
  induction s as [|c s IH]; simpl; [done|].
  pose proof (split_nonempty sep s) as Hne.
  destruct (Ascii.eqb_spec c sep) as [->|Hc].
  - destruct (split sep s) as [|p ps] eqn:E; [done|].
    change (join sep (EmptyString :: p :: ps))
      with (String sep (join sep (p :: ps))). by rewrite IH.
  - destruct (split sep s) as [|p ps] eqn:E; [done|].
    destruct ps as [|q qs]; simpl in *; by rewrite <- IH.
Qed.

(** The first part is what stands before the first separator. *)
Lemma split_first_spec sep s :
  ¬ occurs sep (split_first sep s) ∧
  (s = split_first sep s ∨
   ∃ rest, s = split_first sep s +:+ String sep rest).
Proof.
  unfold split_first. induction s as [|c s [IH1 IH2]]; simpl.
  - split; [tauto|by left].
  - destruct (Ascii.eqb_spec c sep) as [->|Hc].
    + split; [simpl; tauto|]. right. by exists s.
    + pose proof (split_nonempty sep s) as Hne.
      destruct (split sep s) as [|p ps]; [done|]. split.
      * simpl. intros [?|?]; [done|tauto].
      * destruct IH2 as [->|[rest ->]]; [by left|]. right. by exists rest.
Qed.

Lemma lower_char_y c :
  lower_char c = Ascii.ascii_of_nat 121 ↔
  c = Ascii.ascii_of_nat 121 ∨ c = Ascii.ascii_of_nat 89.
Proof.
  destruct c as [[] [] [] [] [] [] [] []]; vm_compute;
    split; intros H; try discriminate H; try (destruct H as [H|H]; discriminate H);
    auto.
Qed.

(** Whether a non-empty string starts with "y" is up to its first
    character. *)
Lemma startswith_y c s :
  startswith (String c s) "y" = Ascii.eqb (Ascii.ascii_of_nat 121) c.
Proof.
  change (Ascii.eqb (Ascii.ascii_of_nat 121) c && startswith s EmptyString
          = Ascii.eqb (Ascii.ascii_of_nat 121) c).
  destruct s; apply andb_true_r.
Qed.

End strings.

(** ** Message flattening *)

Section flattening.
Import PyStr.

(** Induction on messages, with the items of a list covered. *)
Lemma message_induction (P : message → Prop) :
  (∀ text, P (MText text)) →
  (∀ items, Forall P items → P (MList items)) →
  ∀ msg, P msg.
Proof.
  intros Htext Hlist. fix IH 1. intros [text|items]; [apply Htext|].
  apply Hlist. induction items as [|item items IHitems]; constructor.
  - apply IH.
  - apply IHitems.
Qed.

(** Appending a list, item by item from the left. *)
Lemma _AppendToMessage_MList msg items :
  _AppendToMessage msg (MList items) =
  foldl _AppendToMessage msg items.
Proof.
  simpl. revert msg. induction items as [|item items IH]; intros msg; simpl.
  - done.
  - apply IH.
Qed.

(** Appending to a message leaves what it held in place. *)
Lemma _AppendToMessage_app msg response :
  _AppendToMessage msg response = msg ++ _MakeMessage response.
Proof.
  unfold _MakeMessage. revert msg.
  induction response as [text|items IH] using message_induction; intros msg.
  - done.
  - rewrite !_AppendToMessage_MList. revert msg.
    induction IH as [|item items Hitem _ IHitems]; intros msg; simpl.
    + by rewrite app_nil_r.
    + rewrite (IHitems (_AppendToMessage msg item)).
      rewrite (IHitems (_AppendToMessage [] item)).
      rewrite (Hitem msg). by rewrite app_assoc.
Qed.

(** A text is flattened to its lines. *)
Lemma _MakeMessage_MText text : _MakeMessage (MText text) = split LF text.
Proof. reflexivity. Qed.

(** A list is flattened to its items' lines, one item after the other. *)
Lemma _MakeMessage_MList items :
  _MakeMessage (MList items) = concat (_MakeMessage <$> items).
Proof.
  unfold _MakeMessage at 1. rewrite _AppendToMessage_MList.
  induction items as [|item items IH] using rev_ind; [done|].
  rewrite foldl_snoc, _AppendToMessage_app, IH.
  rewrite fmap_app, concat_app. simpl. by rewrite app_nil_r.
Qed.

(** Every line of a flattened message is free of line feeds. *)
Lemma _MakeMessage_single_line msg line :
  line ∈ _MakeMessage msg → Core.single_line line.
Proof.
  revert line.
  induction msg as [text|items IH] using message_induction; intros line.
  - rewrite _MakeMessage_MText. apply split_parts.
  - rewrite _MakeMessage_MList. intros Hin.
    apply list_elem_of_In, in_concat in Hin as (lines & Hlines & Hline).
    apply list_elem_of_In, list_elem_of_fmap in Hlines as (item & -> & Hitem).
    rewrite Forall_forall in IH.
    apply (IH item); by apply list_elem_of_In.
Qed.

(** A flat list of single lines is its own flattening. *)
Lemma _MakeMessage_flat lines :
  Forall Core.single_line lines → _MakeMessage (MList (MText <$> lines)) = lines.
Proof.
  intros Hlines. rewrite _MakeMessage_MList.
  induction Hlines as [|line lines Hline _ IH]; [done|].
  rewrite !fmap_cons.
  change (_MakeMessage (MText line) ++ concat (_MakeMessage <$> (MText <$> lines))
          = line :: lines).
  rewrite IH, _MakeMessage_MText, split_single; done.
Qed.

End flattening.

(** ** The request tracker *)

Section tracker.
Import RequestTracker.

Implicit Types (st : state) (user : User) (d : loc) (now : Qc).

(** A dict with an entry is truthy. *)
Lemma dict_nonempty (m : dict) key v :
  m !! key = Some v → negb (Nat.eqb (size m) 0) = true.
Proof.
  intros Hkey. apply negb_true_iff, Nat.eqb_neq.
  intros Hsize. apply map_size_empty_iff in Hsize. subst m.
  by rewrite lookup_empty in Hkey.
Qed.

Lemma Qc_lt_ge_false (x y : Qc) : (x < y)%Qc → bool_decide (y ≤ x)%Qc = false.
Proof. intros H. apply bool_decide_eq_false. by apply Qclt_nge. Qed.

Lemma Qc_ge_lt_false (x y : Qc) : (y ≤ x)%Qc → bool_decide (x < y)%Qc = false.
Proof. intros H. apply bool_decide_eq_false. by apply Qcle_ngt. Qed.

(** A call is turned down while the stored request is younger than the
    timeout: one reply, and nothing else changes. *)
Lemma RequestConfirmation_rejects st user d timestamp now summary
    request_details action_fn parse_fn :
  _pending_requests st !! user = Some d →
  heap_at st d !! "timestamp" = Some (VFloat timestamp) →
  (now - timestamp < _REQUEST_TIMEOUT_SEC)%Qc →
  RequestConfirmation now user summary request_details action_fn parse_fn st
  = (Ok tt, with_event st (rejection user)).
Proof.
  intros Hpending Htimestamp Hyoung.
  unfold RequestConfirmation, mbind, M_bind, pending_get, dict_truthy, getitem.
  rewrite Hpending, (dict_nonempty _ _ _ Htimestamp). cbv iota.
  rewrite Htimestamp. simpl.
  by rewrite bool_decide_eq_true_2.
Qed.

(** The tail of [RequestConfirmation] that stores the request. *)
Lemma store_accepted st now user summary request_details action_fn parse_fn :
  (setitem request_details "timestamp" (VFloat now);;
   setitem request_details "action" (VAction action_fn);;
   setitem request_details "parse"
     (VParse match parse_fn with Some f => f | None => default_parse_fn end);;
   pending_set user request_details;;
   _reply_fn user (VStr ("Confirm " +:+ summary +:+ "?"))) st
  = (Ok tt, accepted st now user summary request_details action_fn parse_fn).
Proof.
  unfold mbind, M_bind, setitem, pending_set, _reply_fn, emit, accepted,
    filled, heap_at, parse_of. simpl.
  rewrite !lookup_insert_eq. simpl. rewrite !insert_insert_eq.
  by destruct parse_fn.
Qed.

(** A call is accepted when nothing stands in its way. *)
Lemma RequestConfirmation_accepts st user now summary request_details
    action_fn parse_fn :
  vacant st user now →
  RequestConfirmation now user summary request_details action_fn parse_fn st
  = (Ok tt, accepted st now user summary request_details action_fn parse_fn).
Proof.
  intros [Hnone|(d & timestamp & Hpending & Htimestamp & Hold)].
  - unfold RequestConfirmation. unfold mbind at 1, M_bind at 1, pending_get.
    rewrite Hnone. apply store_accepted.
  - unfold RequestConfirmation.
    unfold mbind at 1, M_bind at 1, pending_get. rewrite Hpending.
    unfold mbind at 1, M_bind at 1, dict_truthy.
    rewrite (dict_nonempty _ _ _ Htimestamp).
    cbv iota. unfold mbind at 1, M_bind at 1.
    unfold mbind at 1, M_bind at 1, getitem. rewrite Htimestamp. simpl.
    rewrite (Qc_ge_lt_false _ _ Hold).
    unfold mbind at 1, M_bind at 1, pending_del. rewrite Hpending.
    rewrite store_accepted. unfold accepted, heap_at. simpl.
    by rewrite insert_delete_eq.
Qed.

(** Resolving a stored request: the events depend on the reply and on the
    age of the request, the entry goes in every case. *)
Lemma ResolveRequest_stored st user d timestamp action parse now user_msg :
  stored st user d timestamp action parse →
  ResolveRequest now user user_msg st
  = (Ok tt,
     State (heap st) (delete user (_pending_requests st))
           (trace st ++ resolve_events (heap_at st d) timestamp action parse
                                       now user d user_msg)).
Proof.
  intros (Hpending & Htimestamp & Haction & Hparse).
  unfold ResolveRequest, resolve_events.
  unfold mbind at 1, M_bind at 1, pending_get. rewrite Hpending.
  unfold mbind at 1, M_bind at 1, dict_truthy.
  rewrite (dict_nonempty _ _ _ Htimestamp). cbn [negb]. cbv beta iota.
  unfold mbind, M_bind, getitem, call_parse, get_default, pending_del.
  unfold heap_at in *. rewrite Hparse. simpl. destruct (parse user_msg); simpl.
  - rewrite Htimestamp. simpl. case_bool_decide; simpl.
    + by rewrite Hpending.
    + rewrite Haction. simpl. rewrite Hpending. by rewrite <- app_assoc.
  - by rewrite Hpending.
Qed.

(** With no dict stored for the user there is nothing to resolve. *)
Lemma ResolveRequest_none st user now user_msg :
  _pending_requests st !! user = None →
  ResolveRequest now user user_msg st = (Ok tt, st).
Proof.
  intros Hnone. unfold ResolveRequest, mbind, M_bind, pending_get.
  by rewrite Hnone.
Qed.

(** *** The invariant *)

Lemma wf_with_event st e : wf st → wf (with_event st e).
Proof. intros Hwf user d Hpending. apply (Hwf user d Hpending). Qed.

Lemma wf_delete st user tr :
  wf st → wf (State (heap st) (delete user (_pending_requests st)) tr).
Proof.
  intros Hwf user' d Hpending. simpl in Hpending.
  apply lookup_delete_Some in Hpending as [Hne Hpending].
  destruct (Hwf user' d Hpending) as (timestamp & action & parse & Hstored).
  exists timestamp, action, parse. destruct Hstored as (_ & ? & ? & ?).
  split; [|done]. simpl. by rewrite lookup_delete_ne.
Qed.

Lemma stored_accepted st now user summary d action_fn parse_fn :
  stored (accepted st now user summary d action_fn parse_fn) user d
         now action_fn (parse_of parse_fn).
Proof.
  unfold stored, accepted, heap_at, filled. simpl.
  rewrite !lookup_insert_eq. simpl. by simplify_map_eq.
Qed.

Lemma wf_accepted st now user summary d action_fn parse_fn :
  wf st → wf (accepted st now user summary d action_fn parse_fn).
Proof.
  intros Hwf user' d' Hpending.
  destruct (decide (d' = d)) as [->|Hd].
  - exists now, action_fn, (parse_of parse_fn).
    destruct (stored_accepted st now user summary d action_fn parse_fn)
      as (_ & ? & ? & ?). done.
  - simpl in Hpending.
    apply lookup_insert_Some in Hpending as [[_ ?]|[Hne Hpending]]; [done|].
    destruct (Hwf user' d' Hpending) as (timestamp & action & parse & Hstored).
    exists timestamp, action, parse. destruct Hstored as (_ & ? & ? & ?).
    unfold stored, accepted, heap_at in *. simpl.
    rewrite !lookup_insert_ne by done. done.
Qed.

(** Under the invariant a call either is turned down or stores. *)
Lemma RequestConfirmation_cases st now user summary d action_fn parse_fn :
  wf st →
  RequestConfirmation now user summary d action_fn parse_fn st
  = (Ok tt, with_event st (rejection user)) ∨
  RequestConfirmation now user summary d action_fn parse_fn st
  = (Ok tt, accepted st now user summary d action_fn parse_fn).
Proof.
  intros Hwf. destruct (_pending_requests st !! user) as [prev|] eqn:Hpending.
  - destruct (Hwf user prev Hpending)
      as (timestamp & action & parse & _ & Htimestamp & _).
    destruct (decide (now - timestamp < _REQUEST_TIMEOUT_SEC)%Qc) as [Hlt|Hge].
    + left. by eapply RequestConfirmation_rejects.
    + right. apply RequestConfirmation_accepts. right.
      exists prev, timestamp. split_and!; [done..|]. by apply Qcle_ngt.
  - right. apply RequestConfirmation_accepts. by left.
Qed.

Lemma RequestConfirmation_wf st now user summary d action_fn parse_fn :
  wf st →
  wf (RequestConfirmation now user summary d action_fn parse_fn st).2.
Proof.
  intros Hwf.
  destruct (RequestConfirmation_cases st now user summary d action_fn parse_fn
              Hwf) as [->| ->]; simpl.
  - by apply wf_with_event.
  - by apply wf_accepted.
Qed.

(** Under the invariant [ResolveRequest] returns, with the entry gone. *)
Lemma ResolveRequest_cases st now user user_msg :
  wf st →
  ∃ tr, ResolveRequest now user user_msg st
        = (Ok tt, State (heap st) (delete user (_pending_requests st)) tr).
Proof.
  intros Hwf. destruct (_pending_requests st !! user) as [d|] eqn:Hpending.
  - destruct (Hwf user d Hpending) as (timestamp & action & parse & Hstored).
    eexists. by eapply ResolveRequest_stored.
  - exists (trace st). rewrite ResolveRequest_none by done.
    rewrite delete_id by done. by destruct st.
Qed.

Lemma ResolveRequest_wf st now user user_msg :
  wf st → wf (ResolveRequest now user user_msg st).2.
Proof.
  intros Hwf. destruct (ResolveRequest_cases st now user user_msg Hwf)
    as [tr ->]. simpl. by apply wf_delete.
Qed.

(** Every state the tracker reaches satisfies the invariant. *)
Lemma reachable_wf st : reachable st → wf st.
Proof.
  induction 1 as [h|st o _ IH].
  - intros user d Hpending. simpl in Hpending.
    by rewrite lookup_empty in Hpending.
  - destruct o as [user c|now user user_msg]; simpl.
    + by apply RequestConfirmation_wf.
    + by apply ResolveRequest_wf.
Qed.

(** In a state the tracker reaches no operation raises. *)
Lemma reachable_returns st o : reachable st → (run_op o st).1 = Ok tt.
Proof.
  intros Hwf%reachable_wf. destruct o as [user c|now user user_msg]; simpl.
  - unfold request.
    by destruct (RequestConfirmation_cases st (c_now c) user (c_summary c)
                   (c_request_details c) (c_action_fn c) (c_parse_fn c) Hwf)
      as [->| ->].
  - by destruct (ResolveRequest_cases st now user user_msg Hwf) as [tr ->].
Qed.

(** In a state the tracker reaches, a dict stored for a user is a request. *)
Lemma reachable_stored st user d :
  reachable st → _pending_requests st !! user = Some d →
  ∃ timestamp action parse, stored st user d timestamp action parse.
Proof. intros Hwf%reachable_wf. apply Hwf. Qed.

(** While the stored request is young, a run of calls is turned down one by
    one and changes nothing but the trace. *)
Lemma requests_rejected st user d timestamp cs :
  _pending_requests st !! user = Some d →
  heap_at st d !! "timestamp" = Some (VFloat timestamp) →
  Forall (λ c, (c_now c - timestamp < _REQUEST_TIMEOUT_SEC)%Qc) cs →
  requests user cs st
  = (Ok tt, State (heap st) (_pending_requests st)
                  (trace st ++ replicate (length cs) (rejection user))).
Proof.
  intros Hpending Htimestamp Hyoung. revert st Hpending Htimestamp.
  induction Hyoung as [|c cs Hc _ IH]; intros st Hpending Htimestamp; simpl.
  - rewrite app_nil_r. by destruct st.
  - unfold mbind, M_bind, request.
    rewrite (RequestConfirmation_rejects st user d timestamp) by done.
    rewrite (IH (with_event st (rejection user))) by done.
    simpl. by rewrite <- app_assoc.
Qed.

End tracker.

(** ** The claims about the request tracker *)

Section tracker_claims.
Import RequestTracker.

Implicit Types (st : state) (user : User) (d : loc) (now : Qc).

(** C1. At most one pending request per user.  Take a run of
    [RequestConfirmation] calls for one user, with no [ResolveRequest] in
    between, the first made when nothing stands in its way and the others
    less than 60 seconds after it.  The first call stores its request and
    asks for confirmation.  Every later call is answered 'Confirm prior
    request before submitting another.' and stores nothing: the dicts, the
    pending map and so the stored action are those the first call left. *)
Theorem one_pending_request_per_user st user c cs :
  vacant st user (c_now c) →
  Forall (λ c', (c_now c' - c_now c < _REQUEST_TIMEOUT_SEC)%Qc) cs →
  let first := accepted st (c_now c) user (c_summary c) (c_request_details c)
                        (c_action_fn c) (c_parse_fn c) in
  request user c st = (Ok tt, first) ∧
  stored first user (c_request_details c) (c_now c) (c_action_fn c)
         (parse_of (c_parse_fn c)) ∧
  requests user cs first
  = (Ok tt, State (heap first) (_pending_requests first)
                  (trace first ++ replicate (length cs) (rejection user))) ∧
  requests user (c :: cs) st
  = (Ok tt, State (heap first) (_pending_requests first)
                  (trace st
                   ++ EReply user (VStr ("Confirm " +:+ c_summary c +:+ "?"))
                   :: replicate (length cs) (rejection user))).
Proof.
  intros Hvacant Hyoung first.
  assert (request user c st = (Ok tt, first)) as Hfirst
    by by apply RequestConfirmation_accepts.
  assert (stored first user (c_request_details c) (c_now c) (c_action_fn c)
                 (parse_of (c_parse_fn c))) as Hstored
    by apply stored_accepted.
  assert (requests user cs first
          = (Ok tt, State (heap first) (_pending_requests first)
                      (trace first ++ replicate (length cs) (rejection user))))
    as Hrest.
  { destruct Hstored as (Hpending & Htimestamp & _).
    by apply (requests_rejected first user (c_request_details c) (c_now c)). }
  split_and!; [done..|].
  change (requests user (c :: cs) st)
    with ((request user c;; requests user cs) st).
  unfold mbind, M_bind. rewrite Hfirst, Hrest. subst first. simpl.
  by rewrite <- app_assoc.
Qed.

Lemma one_pending_request_per_user_witness :
  requests "bob"
    [Call (Qc_of_Z 100) "a refund" 1%nat 7%nat None;
     Call (Qc_of_Z 130) "a payment" 2%nat 8%nat None;
     Call (Qc_of_Z 159) "a refund" 1%nat 9%nat None]
    (State ∅ ∅ [])
  = (Ok tt,
     State {[ 1%nat := filled ∅ (Qc_of_Z 100) 7%nat None ]}
           {[ "bob" := 1%nat ]}
           [EReply "bob" (VStr "Confirm a refund?");
            rejection "bob"; rejection "bob"]).
Proof.
  destruct (one_pending_request_per_user (State ∅ ∅ []) "bob"
              (Call (Qc_of_Z 100) "a refund" 1%nat 7%nat None)
              [Call (Qc_of_Z 130) "a payment" 2%nat 8%nat None;
               Call (Qc_of_Z 159) "a refund" 1%nat 9%nat None])
    as (_ & _ & _ & Hrun).
  - left. reflexivity.
  - repeat constructor.
  - exact Hrun.
Defined.

(** C2. Resolution always clears state.  A [ResolveRequest] call that finds
    a request stored for the user returns with the entry removed, whatever
    the reply and whatever the age of the request (confirmed, denied or
    expired): [HasPendingRequest] is false afterwards, and a fresh
    [RequestConfirmation] of the user, at any time, is stored and asks for
    confirmation. *)
Theorem resolution_clears_state st user d timestamp action parse now user_msg :
  stored st user d timestamp action parse →
  ∃ st',
    ResolveRequest now user user_msg st = (Ok tt, st') ∧
    _pending_requests st' = delete user (_pending_requests st) ∧
    trace st' = trace st ++ resolve_events (heap_at st d) timestamp action
                                           parse now user d user_msg ∧
    HasPendingRequest user st' = (Ok false, st') ∧
    ∀ now' summary d' action_fn parse_fn, ∃ st'',
      RequestConfirmation now' user summary d' action_fn parse_fn st'
      = (Ok tt, st'') ∧
      stored st'' user d' now' action_fn (parse_of parse_fn) ∧
      trace st'' = trace st' ++ [EReply user (VStr ("Confirm " +:+ summary +:+ "?"))].
Proof.
  intros Hstored. eexists. split; [by eapply ResolveRequest_stored|].
  split_and!; [done..| |].
  - unfold HasPendingRequest. simpl. rewrite lookup_delete_eq.
    by rewrite bool_decide_eq_false_2 by (by intros [? ?]).
  - intros now' summary d' action_fn parse_fn. eexists. split.
    + apply RequestConfirmation_accepts. left. simpl. apply lookup_delete_eq.
    + split; [apply stored_accepted|done].
Qed.

Lemma resolution_clears_state_witness :
  let st := accepted (State ∅ ∅ []) (Qc_of_Z 100) "bob" "a refund" 1%nat 7%nat
                     None in
  ∃ st',
    ResolveRequest (Qc_of_Z 500) "bob" "yes" st = (Ok tt, st') ∧
    HasPendingRequest "bob" st' = (Ok false, st').
Proof.
  intros st.
  destruct (resolution_clears_state st "bob" 1%nat (Qc_of_Z 100) 7%nat
              default_parse_fn (Qc_of_Z 500) "yes")
    as (st' & Hresolve & _ & _ & Hpending & _).
  - repeat split.
  - exists st'. split; [exact Hresolve|exact Hpending].
Defined.

(** C3. The timeout boundary of [ResolveRequest].  For a user with a stored
    request and a reply on which the stored parse function is true: if less
    than 60 seconds have passed since the request's timestamp, the
    acknowledgement is sent ([request_details['action_text']] if present,
    else 'Confirmation accepted.') and then the stored action is invoked,
    once, with the user and the request's dict; if 60 seconds or more have
    passed, the action is not invoked and the user is sent 'You took too
    long to confirm, try again.' *)
Theorem resolve_timeout_boundary st user d timestamp action parse now user_msg :
  stored st user d timestamp action parse →
  parse user_msg = true →
  ((now - timestamp < _REQUEST_TIMEOUT_SEC)%Qc →
   ∃ st',
     ResolveRequest now user user_msg st = (Ok tt, st') ∧
     trace st' = trace st
                 ++ [EReply user (default (VStr "Confirmation accepted.")
                                          (heap_at st d !! "action_text"));
                     ECall action user d] ∧
     calls (trace st') = calls (trace st) ++ [(action, user, d)]) ∧
  ((_REQUEST_TIMEOUT_SEC ≤ now - timestamp)%Qc →
   ∃ st',
     ResolveRequest now user user_msg st = (Ok tt, st') ∧
     trace st' = trace st
                 ++ [EReply user
                       (VStr "You took too long to confirm, try again.")] ∧
     calls (trace st') = calls (trace st)).
Proof.
  intros Hstored Hparse.
  pose proof (ResolveRequest_stored st user d timestamp action parse now
                user_msg Hstored) as Hresolve.
  unfold resolve_events in Hresolve. rewrite Hparse in Hresolve.
  simpl in Hresolve. split.
  - intros Hyoung. rewrite (Qc_lt_ge_false _ _ Hyoung) in Hresolve.
    eexists. split; [exact Hresolve|]. split; [done|].
    simpl. unfold calls. rewrite flat_map_app. done.
  - intros Hold. rewrite bool_decide_eq_true_2 in Hresolve by done.
    eexists. split; [exact Hresolve|]. split; [done|].
    simpl. unfold calls. rewrite flat_map_app. simpl. by rewrite app_nil_r.
Qed.

Lemma resolve_timeout_boundary_witness :
  let st := accepted (State ∅ ∅ []) (Qc_of_Z 100) "bob" "a refund" 1%nat 7%nat
                     None in
  (∃ st', ResolveRequest (Qc_of_Z 159) "bob" "Yes" st = (Ok tt, st') ∧
          trace st' = trace st ++ [EReply "bob" (VStr "Confirmation accepted.");
                                   ECall 7%nat "bob" 1%nat]) ∧
  (∃ st', ResolveRequest (Qc_of_Z 160) "bob" "Yes" st = (Ok tt, st') ∧
          trace st' = trace st ++ [EReply "bob"
                        (VStr "You took too long to confirm, try again.")]).
Proof.
  intros st. split.
  - destruct (resolve_timeout_boundary st "bob" 1%nat (Qc_of_Z 100) 7%nat
                default_parse_fn (Qc_of_Z 159) "Yes") as [Hyoung _].
    + repeat split.
    + reflexivity.
    + destruct Hyoung as (st' & Hresolve & Htrace & _); [reflexivity|].
      exists st'. split; [exact Hresolve|exact Htrace].
  - destruct (resolve_timeout_boundary st "bob" 1%nat (Qc_of_Z 100) 7%nat
                default_parse_fn (Qc_of_Z 160) "Yes") as [_ Hold].
    + repeat split.
    + reflexivity.
    + destruct Hold as (st' & Hresolve & Htrace & _); [by vm_compute|].
      exists st'. split; [exact Hresolve|exact Htrace].
Defined.

(** C9. The default parse predicate.  A [RequestConfirmation] call without a
    parse function that stores its request stores
    [lambda x: x.lower().startswith('y')].  That predicate does not look at
    case (replies with the same lower-case form get the same answer) and is
    true exactly on the replies that start with the letter y, small or
    capital: true on "Yes", "y" and "YEAH", false on "no" and on the empty
    reply. *)
Theorem default_parse_predicate :
  (∀ st now user summary d action_fn,
     vacant st user now →
     ∃ st',
       RequestConfirmation now user summary d action_fn None st = (Ok tt, st') ∧
       stored st' user d now action_fn default_parse_fn) ∧
  (∀ x y, PyStr.lower x = PyStr.lower y →
          default_parse_fn x = default_parse_fn y) ∧
  (∀ x, default_parse_fn x = true ↔
        ∃ rest, x = "y" +:+ rest ∨ x = "Y" +:+ rest) ∧
  default_parse_fn "Yes" = true ∧
  default_parse_fn "y" = true ∧
  default_parse_fn "YEAH" = true ∧
  default_parse_fn "no" = false ∧
  default_parse_fn "" = false.
Proof.
  split_and!; try reflexivity.
  - intros st now user summary d action_fn Hvacant. eexists. split.
    + by apply RequestConfirmation_accepts.
    + apply (stored_accepted st now user summary d action_fn None).
  - intros x y Hlower. unfold default_parse_fn. by rewrite Hlower.
  - intros [|c x]; unfold default_parse_fn.
    + split; [done|]. intros [rest [?|?]]; done.
    + cbn [PyStr.lower]. rewrite startswith_y. split.
      * intros Hc%Ascii.eqb_eq. symmetry in Hc. apply lower_char_y in Hc.
        exists x. destruct Hc as [->| ->]; [by left|by right].
      * intros [rest [Hx|Hx]]; simpl in Hx; injection Hx as -> _;
          reflexivity.
Qed.

Lemma default_parse_predicate_witness :
  ∃ st',
    RequestConfirmation (Qc_of_Z 100) "bob" "a refund" 1%nat 7%nat None
                        (State ∅ ∅ []) = (Ok tt, st') ∧
    stored st' "bob" 1%nat (Qc_of_Z 100) 7%nat default_parse_fn.
Proof.
  destruct default_parse_predicate as [Hstores _].
  apply (Hstores (State ∅ ∅ []) (Qc_of_Z 100) "bob" "a refund" 1%nat 7%nat).
  left. reflexivity.
Defined.

(** C10. A duplicate that is turned down leaves the request alone.  For a
    user whose stored request is younger than 60 seconds, a
    [RequestConfirmation] call only sends the rejection: the dicts and the
    pending map are unchanged, so the stored request keeps its timestamp,
    its action and its parse function, and a later [ResolveRequest] still
    measures the 60 seconds from the original timestamp. *)
Theorem rejected_duplicate_changes_nothing st user d timestamp action parse
    now summary request_details action_fn parse_fn :
  stored st user d timestamp action parse →
  (now - timestamp < _REQUEST_TIMEOUT_SEC)%Qc →
  ∃ st',
    RequestConfirmation now user summary request_details action_fn parse_fn st
    = (Ok tt, st') ∧
    heap st' = heap st ∧
    _pending_requests st' = _pending_requests st ∧
    trace st' = trace st ++ [rejection user] ∧
    stored st' user d timestamp action parse ∧
    ∀ later user_msg,
      ResolveRequest later user user_msg st'
      = (Ok tt,
         State (heap st) (delete user (_pending_requests st))
               (trace st' ++ resolve_events (heap_at st d) timestamp action
                                            parse later user d user_msg)).
Proof.
  intros Hstored Hyoung. exists (with_event st (rejection user)).
  assert (stored (with_event st (rejection user)) user d timestamp action
                 parse) as Hstored' by exact Hstored.
  split_and!; try done.
  - destruct Hstored as (Hpending & Htimestamp & _).
    by eapply RequestConfirmation_rejects.
  - intros later user_msg.
    by rewrite (ResolveRequest_stored _ user d timestamp action parse).
Qed.

Lemma rejected_duplicate_changes_nothing_witness :
  let st := accepted (State ∅ ∅ []) (Qc_of_Z 100) "bob" "a refund" 1%nat 7%nat
                     None in
  ∃ st',
    RequestConfirmation (Qc_of_Z 159) "bob" "a payment" 2%nat 8%nat
                        (Some (λ _, true)) st = (Ok tt, st') ∧
    heap st' = heap st ∧
    _pending_requests st' = _pending_requests st ∧
    stored st' "bob" 1%nat (Qc_of_Z 100) 7%nat default_parse_fn.
Proof.
  intros st.
  destruct (rejected_duplicate_changes_nothing st "bob" 1%nat (Qc_of_Z 100)
              7%nat default_parse_fn (Qc_of_Z 159) "a payment" 2%nat 8%nat
              (Some (λ _, true)))
    as (st' & Hcall & Hheap & Hpending & _ & Hstored & _).
  - repeat split.
  - reflexivity.
  - exists st'. split_and!; [exact Hcall|exact Hheap|exact Hpending|exact Hstored].
Defined.

End tracker_claims.

(** ** The reply path *)

Section reply.
Import PyStr Core.

Lemma String_eqb_false (s : string) : s ≠ EmptyString → String.eqb s EmptyString = false.
Proof. intros Hs. by apply String.eqb_neq. Qed.

(** With a message to send and a destination, [Reply] logs if asked to and
    then sends, cut short or not. *)
Lemma Reply_sends channel msg default_channel limit_lines max_public_lines
    user log log_level c :
  msg_truthy (Some msg) = true →
  destination channel default_channel = Some c →
  Reply channel (Some msg) default_channel limit_lines max_public_lines user
        log log_level
  = logged log log_level msg ++
    if too_long limit_lines c msg max_public_lines then
      match msg with
      | MList items =>
          if user_truthy user then
            [SendMessage c (_MakeMessage (MText "It's long so I sent it privately."));
             SendMessage {| id := default EmptyString user;
                            visibility := PRIVATE;
                            name := default EmptyString user |}
                         (_MakeMessage msg)]
          else
            [SendMessage c
               (_MakeMessage (MList (py_slice_to items max_public_lines
                                     ++ [MText "..."])))]
      | MText _ => []
      end
    else [SendMessage c (_MakeMessage msg)].
Proof.
  intros Hmsg Hdest. unfold Reply, destination, too_long, logged in *.
  rewrite Hmsg. cbn [negb]. f_equal.
  destruct (if target_truthy channel then channel else default_channel)
    as [[s|c']|] eqn:Hchannel; [| |done].
  - destruct (String.eqb s EmptyString) eqn:Hs; [done|].
    injection Hdest as <-. unfold target_truthy. rewrite Hs. cbn [negb visibility].
    rewrite bool_decide_eq_false_2 by done. by rewrite andb_false_r.
  - injection Hdest as <-. cbn [target_truthy negb].
    destruct limit_lines; [|done]. cbn [andb].
    case_bool_decide; [|done]. cbn [andb].
    destruct msg as [text|items]; [done|].
    case_bool_decide; [|done].
    destruct user as [u|]; [|done]. by destruct (user_truthy (Some u)).
Qed.

(** With nowhere to send, [Reply] logs the attempt and sends nothing. *)
Lemma Reply_no_destination channel msg default_channel limit_lines
    max_public_lines user log log_level :
  msg_truthy (Some msg) = true →
  destination channel default_channel = None →
  Reply channel (Some msg) default_channel limit_lines max_public_lines user
        log log_level
  = logged log log_level msg ++ [LogNoChannel msg].
Proof.
  intros Hmsg Hdest. unfold Reply, destination, logged in *.
  rewrite Hmsg. cbn [negb]. f_equal.
  destruct (if target_truthy channel then channel else default_channel)
    as [[s|c']|] eqn:Hchannel; [|done|done].
  destruct (String.eqb s EmptyString) eqn:Hs; [|done].
  unfold target_truthy. by rewrite Hs.
Qed.

(** Without a message [Reply] does nothing at all. *)
Lemma Reply_empty channel msg default_channel limit_lines max_public_lines
    user log log_level :
  msg_truthy msg = false →
  Reply channel msg default_channel limit_lines max_public_lines user
        log log_level = [].
Proof. intros Hmsg. unfold Reply. rewrite Hmsg. by destruct msg. Qed.

End reply.

(** ** The claims about messages, the reply path and the reload trigger *)

Section core_claims.
Import PyStr Core.

(** C5. Message flattening.  A text is flattened to its lines and a list to
    the lines of its items, in order, however deep the nesting.  Splitting
    loses nothing (joining the lines with line feeds gives the text back),
    a text with a line feed in it gives at least two lines, and no line of
    a flattened message has a line feed in it.  Flattening
    ["a\nb", ["c", "d\ne"]] gives ["a", "b", "c", "d", "e"], and a flat list
    of single lines is flattened to itself. *)
Theorem message_flattening :
  (∀ text, _MakeMessage (MText text) = split LF text) ∧
  (∀ items, _MakeMessage (MList items) = concat (_MakeMessage <$> items)) ∧
  (∀ text, join LF (split LF text) = text) ∧
  (∀ text, occurs LF text → (2 ≤ length (split LF text))%nat) ∧
  (∀ msg line, line ∈ _MakeMessage msg → single_line line) ∧
  _MakeMessage (MList [MText "a
b"; MList [MText "c"; MText "d
e"]])
  = ["a"; "b"; "c"; "d"; "e"] ∧
  (∀ lines, Forall single_line lines →
            _MakeMessage (MList (MText <$> lines)) = lines).
Proof.
  split_and!.
  - apply _MakeMessage_MText.
  - apply _MakeMessage_MList.
  - apply join_split.
  - apply split_multiple.
  - apply _MakeMessage_single_line.
  - reflexivity.
  - apply _MakeMessage_flat.
Qed.

Lemma message_flattening_witness :
  _MakeMessage (MList (MText <$> ["one"; ""; "three"])) = ["one"; ""; "three"].
Proof.
  destruct message_flattening as (_ & _ & _ & _ & _ & _ & Hflat).
  apply (Hflat ["one"; ""; "three"]).
  repeat constructor; unfold single_line; simpl; intros H;
    repeat (destruct H as [H|H]; [discriminate H|]); exact H.
Defined.

(** C4, as the specification has it, fails: the text "1\n2\n3\n4" has four
    lines, more than the two allowed, and is sent whole to a public channel
    with [limit_lines] set, where the specification would have it cut to
    "1", "2", "...". *)
Lemma reply_truncation_counterexample :
  let lobby := {| id := "#lobby"; visibility := PUBLIC; name := "lobby" |} in
  let msg := MText "1
2
3
4" in
  Reply (Some (TChannel lobby)) (Some msg) None true 2 None false INFO
  = [SendMessage lobby ["1"; "2"; "3"; "4"]] ∧
  spec_truncated_lines true PUBLIC 2 msg = ["1"; "2"; "..."] ∧
  Reply (Some (TChannel lobby)) (Some msg) None true 2 None false INFO
  ≠ [SendMessage lobby (spec_truncated_lines true PUBLIC 2 msg)].
Proof. split_and!; [reflexivity|reflexivity|discriminate]. Qed.

(** C4, amended.  [Reply] cuts a message short only when [limit_lines] is
    set, the destination is PUBLIC and the message is a list of more than
    [max_public_lines] items (items, not flattened lines; a text is never
    cut).  Then, with no overflow user, exactly one message goes to the
    destination: the flattening of the first [max_public_lines] items and
    of the marker "...".  For a flat list of single lines these are the
    first [max_public_lines] lines and the marker line, so for a limit of 2
    and ["1", "2", "3", "4"] exactly ["1", "2", "..."].  When the test
    fails, the whole flattened message is sent, unmodified. *)
Theorem reply_truncation channel msg default_channel limit_lines
    max_public_lines user log log_level c :
  msg_truthy (Some msg) = true →
  destination channel default_channel = Some c →
  let reply := Reply channel (Some msg) default_channel limit_lines
                     max_public_lines user log log_level in
  (too_long limit_lines c msg max_public_lines = true ↔
   limit_lines = true ∧ visibility c = PUBLIC ∧
   ∃ items, msg = MList items ∧ max_public_lines < Z.of_nat (length items)) ∧
  (too_long limit_lines c msg max_public_lines = false →
   reply = logged log log_level msg ++ [SendMessage c (_MakeMessage msg)]) ∧
  (too_long limit_lines c msg max_public_lines = true →
   user_truthy user = false →
   ∃ items,
     msg = MList items ∧
     reply = logged log log_level msg ++
             [SendMessage c
                (_MakeMessage (MList (py_slice_to items max_public_lines))
                 ++ ["..."])] ∧
     (0 ≤ max_public_lines →
      ∀ lines, items = MText <$> lines → Forall single_line lines →
        reply = logged log log_level msg ++
                [SendMessage c (take (Z.to_nat max_public_lines) lines
                                ++ ["..."])])) ∧
  Reply (Some (TChannel {| id := "#lobby"; visibility := PUBLIC;
                           name := "lobby" |}))
        (Some (MList [MText "1"; MText "2"; MText "3"; MText "4"]))
        None true 2 None false INFO
  = [SendMessage {| id := "#lobby"; visibility := PUBLIC; name := "lobby" |}
                 ["1"; "2"; "..."]].
Proof.
  intros Hmsg Hdest reply. split_and!; [| | |reflexivity].
  - unfold too_long. rewrite !andb_true_iff, bool_decide_eq_true. split.
    + intros [[-> Hpublic] Hitems]. split_and!; [done..|].
      destruct msg as [text|items]; [done|].
      exists items. by rewrite bool_decide_eq_true in Hitems.
    + intros (-> & Hpublic & items & -> & Hitems).
      by rewrite bool_decide_eq_true.
  - intros Hshort. subst reply.
    rewrite (Reply_sends _ _ _ _ _ _ _ _ c) by done. by rewrite Hshort.
  - intros Hlong Huser. subst reply.
    rewrite (Reply_sends _ _ _ _ _ _ _ _ c) by done. rewrite Hlong, Huser.
    destruct msg as [text|items].
    { unfold too_long in Hlong. by rewrite andb_false_r in Hlong. }
    exists items.
    assert (_MakeMessage (MList (py_slice_to items max_public_lines
                                 ++ [MText "..."]))
            = _MakeMessage (MList (py_slice_to items max_public_lines))
              ++ ["..."]) as Hmarker.
    { by rewrite !_MakeMessage_MList, fmap_app, concat_app. }
    rewrite Hmarker. split_and!; [done..|].
    intros Hmax lines -> Hlines.
    unfold py_slice_to. rewrite (proj2 (Z.leb_le 0 max_public_lines) Hmax).
    rewrite <- fmap_take, _MakeMessage_flat; [done|].
    by apply Forall_take.
Qed.

Lemma reply_truncation_witness :
  let lobby := {| id := "#lobby"; visibility := PUBLIC; name := "lobby" |} in
  Reply (Some (TChannel lobby))
        (Some (MList [MText "1"; MText "2"; MText "3"; MText "4"]))
        None true 2 None true INFO
  = [Log INFO (Some (MList [MText "1"; MText "2"; MText "3"; MText "4"]));
     SendMessage lobby ["1"; "2"; "..."]].
Proof.
  intros lobby.
  destruct (reply_truncation (Some (TChannel lobby))
              (MList [MText "1"; MText "2"; MText "3"; MText "4"])
              None true 2 None true INFO lobby)
    as (_ & _ & Hlong & _).
  - reflexivity.
  - reflexivity.
  - destruct Hlong as (items & Hitems & Hreply & _);
      [reflexivity|reflexivity|].
    injection Hitems as <-. exact Hreply.
Defined.

(** C6, as the specification has it, fails for [LogAndOutput]: with an empty
    message, or with none, it sends nothing but does write a log record. *)
Lemma empty_message_counterexample :
  let lobby := {| id := "#lobby"; visibility := PUBLIC; name := "lobby" |} in
  LogAndOutput core_output_fn INFO (Some (TChannel lobby)) (Some (MText ""))
  = [Log INFO (Some (MText ""))] ∧
  LogAndOutput core_output_fn INFO (Some (TChannel lobby)) None
  = [Log INFO None] ∧
  filter is_log
    (LogAndOutput core_output_fn INFO (Some (TChannel lobby)) (Some (MText "")))
  ≠ [].
Proof. split_and!; [reflexivity|reflexivity|discriminate]. Qed.

(** C6, amended.  With an empty message or none, [Reply] does nothing,
    whatever the destination and the log flag: nothing is sent and nothing
    is logged; so [Output] does nothing either.  [LogAndOutput] sends
    nothing, and writes the one log record it always writes. *)
Theorem empty_message_noop msg :
  msg_truthy msg = false →
  (∀ channel default_channel limit_lines max_public_lines user log log_level,
     Reply channel msg default_channel limit_lines max_public_lines user
           log log_level = []) ∧
  (∀ channel, Output core_output_fn channel msg = []) ∧
  (∀ log_level channel,
     LogAndOutput core_output_fn log_level channel msg
     = [Log log_level msg] ∧
     filter is_send (LogAndOutput core_output_fn log_level channel msg) = []).
Proof.
  intros Hmsg. split_and!.
  - intros. by apply Reply_empty.
  - intros. by apply Reply_empty.
  - intros log_level channel. unfold LogAndOutput, Output, core_output_fn.
    by rewrite Reply_empty.
Qed.

Lemma empty_message_noop_witness :
  Reply (Some (TUser "bob")) (Some (MList [])) None true 6 (Some "bob") true
        INFO = [] ∧
  Reply None None None false 6 None true INFO = [].
Proof.
  split.
  - by apply (empty_message_noop (Some (MList []))).
  - by apply (empty_message_noop None).
Defined.

(** C7, as the specification has it, fails for the empty string: it is a
    bare string, but [channel or default_channel] passes over it, and the
    message goes to the default channel, here a public one. *)
Lemma legacy_destination_counterexample :
  let lobby := {| id := "#lobby"; visibility := PUBLIC; name := "lobby" |} in
  Reply (Some (TUser "")) (Some (MText "hi")) (Some (TChannel lobby))
        false 6 None false INFO
  = [SendMessage lobby ["hi"]] ∧
  Reply (Some (TUser "")) (Some (MText "hi")) (Some (TChannel lobby))
        false 6 None false INFO
  ≠ [SendMessage (spec_normalized "") ["hi"]].
Proof. split; [reflexivity|discriminate]. Qed.

(** C7, amended.  For a destination given as a bare string that is not
    empty, and a message to send, [Reply] sends the whole message, once, to
    the channel whose [id] is the string up to its first ':' (all of it when
    there is none), whose visibility is PRIVATE and whose [name] is the full
    string.  An empty string counts as no destination. *)
Theorem legacy_destination s msg default_channel limit_lines max_public_lines
    user log log_level :
  s ≠ EmptyString →
  msg_truthy (Some msg) = true →
  let c := {| id := split_first COLON s; visibility := PRIVATE; name := s |} in
  Reply (Some (TUser s)) (Some msg) default_channel limit_lines
        max_public_lines user log log_level
  = logged log log_level msg ++ [SendMessage c (_MakeMessage msg)] ∧
  ¬ occurs COLON (id c) ∧
  (s = id c ∨ ∃ rest, s = id c +:+ String COLON rest) ∧
  Reply (Some (TUser EmptyString)) (Some msg) default_channel limit_lines
        max_public_lines user log log_level
  = Reply None (Some msg) default_channel limit_lines max_public_lines user
          log log_level.
Proof.
  intros Hs Hmsg c. split_and!.
  - rewrite (Reply_sends _ _ _ _ _ _ _ _ c); [|done|].
    + unfold too_long. cbn [visibility c].
      rewrite bool_decide_eq_false_2 by done. by rewrite andb_false_r.
    + unfold destination, target_truthy.
      rewrite (String_eqb_false s Hs). cbn [negb].
      by rewrite (String_eqb_false s Hs).
  - apply split_first_spec.
  - apply split_first_spec.
  - reflexivity.
Qed.

Lemma legacy_destination_witness :
  Reply (Some (TUser "bob:phone")) (Some (MText "hi")) None true 0 None false
        INFO
  = [SendMessage {| id := "bob"; visibility := PRIVATE; name := "bob:phone" |}
                 ["hi"]].
Proof.
  destruct (legacy_destination "bob:phone" (MText "hi") None true 0 None false
              INFO) as [Hreply _].
  - discriminate.
  - reflexivity.
  - exact Hreply.
Defined.

(** C8. Reload gating.  When the runner is not idle, [ReloadData] returns
    false, flushes no cache and schedules no reload.  When the runner is
    idle, it returns true, flushes the proxy cache first and then hands to
    [RunAsync] the reload of every object among its attributes that has a
    [ReloadData], in the order of the attributes, and of no other object. *)
Theorem reload_gating self :
  (runner_IsIdle self = false →
   ReloadData self
   = (false, [LogInfo "Runner not idle, can not trigger reload."]) ∧
   (FlushCache ∉ (ReloadData self).2) ∧
   scheduled (ReloadData self).2 = []) ∧
  (runner_IsIdle self = true →
   ∃ events,
     ReloadData self = (true, FlushCache :: events) ∧
     (FlushCache ∉ events) ∧
     scheduled events = filter (λ obj, has_ReloadData obj = true)
                               ((__dict__ self).*2) ∧
     ∀ obj, RunAsync obj ∈ events ↔
            has_ReloadData obj = true ∧ ∃ attr, (attr, obj) ∈ __dict__ self).
Proof.
  unfold ReloadData. split; intros ->; cbn [negb].
  - split_and!; [done| |done]. simpl. by intros ?%list_elem_of_singleton.
  - eexists. split; [done|].
    induction (__dict__ self) as [|[attr obj] attrs (IHflush & IHsched & IHrun)].
    + split_and!; [by intros ?%elem_of_nil|done|].
      intros obj. split; [by intros ?%elem_of_nil|].
      by intros (_ & ? & ?%elem_of_nil).
    + cbn [flat_map fmap list_fmap snd]. destruct (has_ReloadData obj) eqn:Hobj.
      * cbn [app]. split_and!.
        -- rewrite !elem_of_cons. by intros [?|[?|?]].
        -- rewrite filter_cons_True by done. unfold scheduled in *.
           cbn [flat_map app]. by rewrite IHsched.
        -- intros obj'. rewrite !elem_of_cons, IHrun. split.
           ++ intros [?|[[= ->]|[? [attr' ?]]]]; [done| |].
              ** split; [done|]. exists attr. by left.
              ** split; [done|]. exists attr'. by right.
           ++ intros [Hobj' [attr' [[= -> ->]|?]%elem_of_cons]].
              ** right. by left.
              ** right. right. split; [done|]. by exists attr'.
      * cbn [app]. split_and!.
        -- done.
        -- by rewrite filter_cons_False by (by rewrite Hobj).
        -- intros obj'. rewrite IHrun. split.
           ++ intros [? [attr' ?]]. split; [done|]. exists attr'. by right.
           ++ intros [Hobj' [attr' [[= -> ->]|?]%elem_of_cons]].
              ** by rewrite Hobj in Hobj'.
              ** split; [done|]. by exists attr'.
Qed.

Lemma reload_gating_witness :
  let store := {| oid := 1; class_name := "RedisStore"; has_ReloadData := false |} in
  let stocks := {| oid := 2; class_name := "StockLib"; has_ReloadData := true |} in
  let attrs := [("store", store); ("stocks", stocks)] in
  ReloadData {| runner_IsIdle := false; __dict__ := attrs |}
  = (false, [LogInfo "Runner not idle, can not trigger reload."]) ∧
  ∃ events,
    ReloadData {| runner_IsIdle := true; __dict__ := attrs |}
    = (true, FlushCache :: events) ∧
    scheduled events = [stocks].
Proof.
  intros store stocks attrs. split.
  - destruct (reload_gating {| runner_IsIdle := false; __dict__ := attrs |})
      as [Hbusy _].
    destruct Hbusy as [Hresult _]; [reflexivity|exact Hresult].
  - destruct (reload_gating {| runner_IsIdle := true; __dict__ := attrs |})
      as [_ Hidle].
    destruct Hidle as (events & Hresult & _ & Hscheduled & _); [reflexivity|].
    exists events. split; [exact Hresult|exact Hscheduled].
Defined.

End core_claims.

(** ** More about the request tracker *)

Section tracker_more.
Import RequestTracker.

Implicit Types (st : state) (user : User) (d : loc) (now : Qc).

(** Whatever the state, a call of [RequestConfirmation] ends in one of
    three ways: it raised on a malformed stored dict and changed nothing,
    it turned the request down, or it stored it. *)
Lemma RequestConfirmation_outcomes st now user summary d action_fn parse_fn :
  (∃ e, RequestConfirmation now user summary d action_fn parse_fn st
        = (Raise e, st)) ∨
  RequestConfirmation now user summary d action_fn parse_fn st
  = (Ok tt, with_event st (rejection user)) ∨
  RequestConfirmation now user summary d action_fn parse_fn st
  = (Ok tt, accepted st now user summary d action_fn parse_fn).
Proof.
  destruct (RequestConfirmation now user summary d action_fn parse_fn st)
    as [res st'] eqn:Hrun.
  revert Hrun.
  unfold RequestConfirmation. unfold mbind at 1, M_bind at 1, pending_get.
  destruct (_pending_requests st !! user) as [prev|] eqn:Hpending.
  - unfold mbind at 1, M_bind at 1, dict_truthy.
    destruct (negb (size (heap_at st prev) =? 0)%nat).
    + unfold mbind at 1, M_bind at 1. unfold mbind at 1, M_bind at 1, getitem.
      destruct (heap_at st prev !! "timestamp") as [v|];
        [|intros [= <- <-]; left; by eexists].
      destruct v as [|s|timestamp|f|f];
        try (intros [= <- <-]; left; by eexists).
      cbn [as_float mret M_ret]. case_bool_decide.
      * intros [= <- <-]. right. by left.
      * unfold mbind at 1, M_bind at 1, pending_del.
        rewrite Hpending. rewrite store_accepted. intros [= <- <-].
        right. right. unfold accepted, heap_at.
        simpl. by rewrite insert_delete_eq.
    + rewrite store_accepted. intros [= <- <-]. by do 2 right.
  - rewrite store_accepted. intros [= <- <-]. by do 2 right.
Qed.

(** Whatever the state, [ResolveRequest] writes to no dict, touches no
    entry but the user's, addresses its events to the user and invokes at
    most one action. *)
Lemma ResolveRequest_outcomes st now user user_msg :
  ∃ new,
    heap (ResolveRequest now user user_msg st).2 = heap st ∧
    (_pending_requests (ResolveRequest now user user_msg st).2
     = _pending_requests st ∨
     _pending_requests (ResolveRequest now user user_msg st).2
     = delete user (_pending_requests st)) ∧
    trace (ResolveRequest now user user_msg st).2 = trace st ++ new ∧
    Forall (λ e, event_user e = user) new ∧
    (length (calls new) ≤ 1)%nat.
Proof.
  unfold ResolveRequest, mbind, M_bind, pending_get, dict_truthy, getitem,
    call_parse, as_float, get_default, call_action, pending_del, _reply_fn,
    emit, raise, mret, M_ret, heap_at.
  repeat (case_match; simplify_eq/=);
    try (exists []; rewrite ?app_nil_r; split_and!; by eauto);
    try (eexists [_]; split_and!; [done|by eauto|done|by repeat constructor|simpl; lia]);
    try (eexists [_; _]; rewrite <- ?app_assoc; split_and!;
         [done|by eauto|done|by repeat constructor|simpl; lia]).
Qed.

Lemma calls_app tr1 tr2 : calls (tr1 ++ tr2) = calls tr1 ++ calls tr2.
Proof. apply flat_map_app. Qed.

(** Storing a request leaves the other keys of the caller's dict alone. *)
Lemma filled_other (m : dict) now action_fn parse_fn key :
  key ≠ "timestamp" → key ≠ "action" → key ≠ "parse" →
  filled m now action_fn parse_fn !! key = m !! key.
Proof. intros. unfold filled. by rewrite !lookup_insert_ne. Qed.

Lemma heap_at_accepted st now user summary d action_fn parse_fn :
  heap_at (accepted st now user summary d action_fn parse_fn) d
  = filled (heap_at st d) now action_fn parse_fn.
Proof. unfold heap_at, accepted. simpl. by rewrite lookup_insert_eq. Qed.

(** X1. No operation of the tracker raises.  In every state reached from
    the constructor by [RequestConfirmation] and [ResolveRequest] calls,
    with any arguments and any clock readings, each operation returns: no
    [KeyError] on 'timestamp', 'action' or 'parse' and none on the [del],
    no [TypeError]; and the state it leaves is again such a state, where
    every stored dict carries the three fields. *)
Theorem tracker_never_raises st o :
  reachable st →
  ∃ st', run_op o st = (Ok tt, st') ∧ reachable st' ∧ wf st'.
Proof.
  intros Hreach.
  pose proof (reachable_returns st o Hreach) as Hok.
  pose proof (reachable_step st o Hreach) as Hnext.
  destruct (run_op o st) as [res st']. simpl in *. subst res.
  exists st'. split_and!; [done..|]. by apply reachable_wf.
Qed.

Lemma tracker_never_raises_witness :
  let st := (run_op (OpRequest "bob" (Call (Qc_of_Z 100) "a refund" 1%nat
                                           7%nat None))
                    (State ∅ ∅ [])).2 in
  ∃ st', run_op (OpResolve (Qc_of_Z 130) "bob" "no") st = (Ok tt, st').
Proof.
  intros st.
  destruct (tracker_never_raises st (OpResolve (Qc_of_Z 130) "bob" "no"))
    as (st' & Hrun & _).
  - apply reachable_step. apply reachable_init.
  - exists st'. exact Hrun.
Defined.

(** X2. Expiry is lazy and replacement is silent.  A stored request that is
    60 seconds old or older still counts as pending for
    [HasPendingRequest]; the next [RequestConfirmation] of the user
    replaces it by the new request and sends only the new prompt: nothing
    is said about the request that timed out, and its action is not
    invoked. *)
Theorem expired_request_is_replaced st user d timestamp action parse
    now summary request_details action_fn parse_fn :
  stored st user d timestamp action parse →
  (_REQUEST_TIMEOUT_SEC ≤ now - timestamp)%Qc →
  let st' := accepted st now user summary request_details action_fn
                      parse_fn in
  HasPendingRequest user st = (Ok true, st) ∧
  RequestConfirmation now user summary request_details action_fn parse_fn st
  = (Ok tt, st') ∧
  stored st' user request_details now action_fn (parse_of parse_fn) ∧
  trace st' = trace st ++ [EReply user (VStr ("Confirm " +:+ summary +:+ "?"))] ∧
  calls (trace st') = calls (trace st).
Proof.
  intros (Hpending & Htimestamp & _) Hold st'. split_and!.
  - unfold HasPendingRequest. rewrite Hpending.
    by rewrite bool_decide_eq_true_2.
  - apply RequestConfirmation_accepts. right. by exists d, timestamp.
  - apply stored_accepted.
  - done.
  - subst st'. simpl. rewrite calls_app. simpl. by rewrite app_nil_r.
Qed.

Lemma expired_request_is_replaced_witness :
  let st := accepted (State ∅ ∅ []) (Qc_of_Z 100) "bob" "a refund" 1%nat 7%nat
                     None in
  RequestConfirmation (Qc_of_Z 160) "bob" "a payment" 2%nat 8%nat None st
  = (Ok tt, accepted st (Qc_of_Z 160) "bob" "a payment" 2%nat 8%nat None).
Proof.
  intros st.
  destruct (expired_request_is_replaced st "bob" 1%nat (Qc_of_Z 100) 7%nat
              default_parse_fn (Qc_of_Z 160) "a payment" 2%nat 8%nat None)
    as (_ & Hrun & _).
  - repeat split.
  - by vm_compute.
  - exact Hrun.
Defined.

(** X3. A reply the parse function rejects cancels the request, at any
    time.  The parse function is asked before the clock is looked at: the
    user is sent 'Cancelling request.' even when the request has timed
    out, the action is not invoked and the entry is removed. *)
Theorem denial_cancels st user d timestamp action parse now user_msg :
  stored st user d timestamp action parse →
  parse user_msg = false →
  ResolveRequest now user user_msg st
  = (Ok tt, State (heap st) (delete user (_pending_requests st))
                  (trace st ++ [EReply user (VStr "Cancelling request.")])).
Proof.
  intros Hstored Hparse.
  rewrite (ResolveRequest_stored st user d timestamp action parse) by done.
  unfold resolve_events. by rewrite Hparse.
Qed.

Lemma denial_cancels_witness :
  let st := accepted (State ∅ ∅ []) (Qc_of_Z 100) "bob" "a refund" 1%nat 7%nat
                     None in
  ResolveRequest (Qc_of_Z 900) "bob" "no" st
  = (Ok tt, State (heap st) (delete "bob" (_pending_requests st))
                  (trace st ++ [EReply "bob" (VStr "Cancelling request.")])).
Proof.
  intros st.
  apply (denial_cancels st "bob" 1%nat (Qc_of_Z 100) 7%nat default_parse_fn).
  - repeat split.
  - reflexivity.
Defined.

(** X4. With nothing stored for the user, [ResolveRequest] does nothing at
    all: nothing is sent, no action is invoked, no state changes, whatever
    the reply; it does not raise on the missing key. *)
Theorem resolve_without_request_is_noop st user now user_msg :
  _pending_requests st !! user = None →
  HasPendingRequest user st = (Ok false, st) ∧
  ResolveRequest now user user_msg st = (Ok tt, st).
Proof.
  intros Hnone. split.
  - unfold HasPendingRequest. rewrite Hnone.
    by rewrite bool_decide_eq_false_2 by (by intros [? ?]).
  - by apply ResolveRequest_none.
Qed.

Lemma resolve_without_request_is_noop_witness :
  ResolveRequest (Qc_of_Z 5) "bob" "yes" (State ∅ ∅ [])
  = (Ok tt, State ∅ ∅ []).
Proof.
  apply (resolve_without_request_is_noop (State ∅ ∅ []) "bob" (Qc_of_Z 5)
           "yes").
  reflexivity.
Defined.

(** X5. Users do not interfere through the tracker.  In any state, well
    formed or not, and whether the call returns or raises: an operation for
    one user leaves the entry of every other user as it was and addresses
    every event it produces to its own user; [RequestConfirmation] writes
    to no dict but the [request_details] it was passed, and
    [ResolveRequest] writes to none. *)
Theorem tracker_frame st user other :
  user ≠ other →
  (∀ now summary d action_fn parse_fn,
     let st' := (RequestConfirmation now user summary d action_fn parse_fn
                                     st).2 in
     _pending_requests st' !! other = _pending_requests st !! other ∧
     (∀ d', d' ≠ d → heap st' !! d' = heap st !! d') ∧
     ∃ new, trace st' = trace st ++ new ∧
            Forall (λ e, event_user e = user) new) ∧
  (∀ now user_msg,
     let st' := (ResolveRequest now user user_msg st).2 in
     _pending_requests st' !! other = _pending_requests st !! other ∧
     heap st' = heap st ∧
     ∃ new, trace st' = trace st ++ new ∧
            Forall (λ e, event_user e = user) new).
Proof.
  intros Hother. split.
  - intros now summary d action_fn parse_fn st'. subst st'.
    destruct (RequestConfirmation_outcomes st now user summary d action_fn
                parse_fn) as [[e ->]|[-> | ->]]; simpl.
    + split_and!; [done..|]. exists []. by rewrite app_nil_r.
    + split_and!; [done..|]. eexists. split; [done|]. by repeat constructor.
    + split_and!.
      * by rewrite lookup_insert_ne.
      * intros d' Hd'. by rewrite lookup_insert_ne.
      * eexists. split; [done|]. by repeat constructor.
  - intros now user_msg st'. subst st'.
    destruct (ResolveRequest_outcomes st now user user_msg)
      as (new & Hheap & Hpending & Htrace & Hnew & _).
    split_and!; [|done|by exists new].
    destruct Hpending as [-> | ->]; [done|]. by rewrite lookup_delete_ne.
Qed.

Lemma tracker_frame_witness :
  let st := accepted (State ∅ ∅ []) (Qc_of_Z 100) "bob" "a refund" 1%nat 7%nat
                     None in
  _pending_requests
    (RequestConfirmation (Qc_of_Z 110) "eve" "a payment" 1%nat 8%nat None st).2
    !! "bob" = Some 1%nat ∧
  _pending_requests (ResolveRequest (Qc_of_Z 110) "eve" "yes" st).2 !! "bob"
  = Some 1%nat.
Proof.
  intros st.
  destruct (tracker_frame st "eve" "bob") as [Hrequest Hresolve];
    [discriminate|].
  split.
  - destruct (Hrequest (Qc_of_Z 110) "a payment" 1%nat 8%nat None)
      as [Hpending _]. exact Hpending.
  - destruct (Hresolve (Qc_of_Z 110) "yes") as [Hpending _]. exact Hpending.
Defined.

(** X6. Request, then confirm.  A request accepted at one time and
    confirmed less than 60 seconds later produces exactly three events: the
    prompt 'Confirm <summary>?', the acknowledgement (the 'action_text' the
    caller put in the dict, which the tracker kept, or 'Confirmation
    accepted.') and one invocation of the action that was passed, with the
    user and the dict that was passed; the user then has no entry. *)
Theorem request_then_confirm st user c now user_msg :
  vacant st user (c_now c) →
  (now - c_now c < _REQUEST_TIMEOUT_SEC)%Qc →
  parse_of (c_parse_fn c) user_msg = true →
  (request user c;; ResolveRequest now user user_msg) st
  = (Ok tt,
     State (heap (accepted st (c_now c) user (c_summary c)
                           (c_request_details c) (c_action_fn c)
                           (c_parse_fn c)))
           (delete user (_pending_requests st))
           (trace st ++
            [EReply user (VStr ("Confirm " +:+ c_summary c +:+ "?"));
             EReply user (default (VStr "Confirmation accepted.")
                            (heap_at st (c_request_details c)
                               !! "action_text"));
             ECall (c_action_fn c) user (c_request_details c)])).
Proof.
  intros Hvacant Hyoung Hparse. unfold mbind, M_bind, request.
  rewrite RequestConfirmation_accepts by done.
  rewrite (ResolveRequest_stored _ user (c_request_details c) (c_now c)
             (c_action_fn c) (parse_of (c_parse_fn c)))
    by apply stored_accepted.
  unfold resolve_events. rewrite Hparse, (Qc_lt_ge_false _ _ Hyoung).
  cbn [negb]. rewrite heap_at_accepted, filled_other by done.
  simpl. rewrite delete_insert_eq, <- app_assoc. done.
Qed.

Lemma request_then_confirm_witness :
  (request "bob" (Call (Qc_of_Z 100) "a refund" 1%nat 7%nat None);;
   ResolveRequest (Qc_of_Z 130) "bob" "yes")
    (State {[ 1%nat := {[ "action_text" := VStr "Refunding." ]} ]} ∅ [])
  = (Ok tt,
     State {[ 1%nat := filled {[ "action_text" := VStr "Refunding." ]}
                              (Qc_of_Z 100) 7%nat None ]}
           ∅
           [EReply "bob" (VStr "Confirm a refund?");
            EReply "bob" (VStr "Refunding.");
            ECall 7%nat "bob" 1%nat]).
Proof.
  pose proof (request_then_confirm
                (State {[ 1%nat := {[ "action_text" := VStr "Refunding." ]} ]}
                       ∅ [])
                "bob" (Call (Qc_of_Z 100) "a refund" 1%nat 7%nat None)
                (Qc_of_Z 130) "yes") as Hrun.
  rewrite Hrun.
  - reflexivity.
  - left. reflexivity.
  - reflexivity.
  - reflexivity.
Defined.

(** X7. The dict is stored by reference.  When two users' requests are made
    with one and the same dict object, the second request overwrites the
    'timestamp', 'action' and 'parse' the first wrote: a confirmation by
    the first user then invokes the action of the second request, judged
    by the second request's parse function and clock, however old the
    first request is; the second user's entry stays. *)
Theorem shared_dict_is_overwritten st user other c1 c2 now user_msg :
  user ≠ other →
  _pending_requests st !! user = None →
  _pending_requests st !! other = None →
  c_request_details c1 = c_request_details c2 →
  (now - c_now c2 < _REQUEST_TIMEOUT_SEC)%Qc →
  parse_of (c_parse_fn c2) user_msg = true →
  ∃ st',
    (request user c1;; request other c2;; ResolveRequest now user user_msg) st
    = (Ok tt, st') ∧
    calls (trace st')
    = calls (trace st) ++ [(c_action_fn c2, user, c_request_details c1)] ∧
    _pending_requests st' !! user = None ∧
    _pending_requests st' !! other = Some (c_request_details c2).
Proof.
  intros Hother Huser Hnone Hshared Hyoung Hparse.
  unfold mbind, M_bind, request.
  rewrite RequestConfirmation_accepts by by left.
  rewrite RequestConfirmation_accepts
    by (left; simpl; by rewrite lookup_insert_ne).
  set (st1 := accepted st (c_now c1) user (c_summary c1)
                (c_request_details c1) (c_action_fn c1) (c_parse_fn c1)).
  set (st2 := accepted st1 (c_now c2) other (c_summary c2)
                (c_request_details c2) (c_action_fn c2) (c_parse_fn c2)).
  assert (stored st2 user (c_request_details c1) (c_now c2) (c_action_fn c2)
                 (parse_of (c_parse_fn c2))) as Hstored.
  { destruct (stored_accepted st1 (c_now c2) other (c_summary c2)
                (c_request_details c2) (c_action_fn c2) (c_parse_fn c2))
      as (_ & ? & ? & ?).
    rewrite Hshared. split; [|done]. subst st2 st1. simpl.
    rewrite lookup_insert_ne by done. rewrite <- Hshared.
    apply lookup_insert_eq. }
  rewrite (ResolveRequest_stored st2 user _ _ _ _ now user_msg Hstored).
  eexists. split; [done|]. unfold resolve_events.
  rewrite Hparse, (Qc_lt_ge_false _ _ Hyoung). cbn [negb]. simpl.
  split_and!.
  - rewrite !calls_app. simpl. by rewrite !app_nil_r.
  - apply lookup_delete_eq.
  - rewrite lookup_delete_ne by done. apply lookup_insert_eq.
Qed.

Lemma shared_dict_is_overwritten_witness :
  ∃ st',
    (request "bob" (Call (Qc_of_Z 100) "a refund" 1%nat 7%nat None);;
     request "eve" (Call (Qc_of_Z 500) "a payment" 1%nat 8%nat None);;
     ResolveRequest (Qc_of_Z 530) "bob" "yes") (State ∅ ∅ [])
    = (Ok tt, st') ∧
    calls (trace st') = [(8%nat, "bob", 1%nat)].
Proof.
  destruct (shared_dict_is_overwritten (State ∅ ∅ []) "bob" "eve"
              (Call (Qc_of_Z 100) "a refund" 1%nat 7%nat None)
              (Call (Qc_of_Z 500) "a payment" 1%nat 8%nat None)
              (Qc_of_Z 530) "yes")
    as (st' & Hrun & Hcalls & _); try reflexivity.
  - discriminate.
  - exists st'. split; [exact Hrun|exact Hcalls].
Defined.

(** X8. Actions are invoked by confirmation only.  In any state,
    [RequestConfirmation] invokes no action, whether it stores, turns down
    or raises, and [ResolveRequest] invokes at most one. *)
Theorem actions_only_on_resolve st user now :
  (∀ summary d action_fn parse_fn,
     calls (trace (RequestConfirmation now user summary d action_fn parse_fn
                                       st).2)
     = calls (trace st)) ∧
  (∀ user_msg,
     ∃ invoked,
       calls (trace (ResolveRequest now user user_msg st).2)
       = calls (trace st) ++ invoked ∧
       (length invoked ≤ 1)%nat).
Proof.
  split.
  - intros summary d action_fn parse_fn.
    destruct (RequestConfirmation_outcomes st now user summary d action_fn
                parse_fn) as [[e ->]|[-> | ->]]; simpl; [done| |];
      rewrite calls_app; simpl; by rewrite app_nil_r.
  - intros user_msg.
    destruct (ResolveRequest_outcomes st now user user_msg)
      as (new & _ & _ & -> & _ & Hcalls).
    exists (calls new). by rewrite calls_app.
Qed.



End tracker_more.

(** ** More about the reply path *)

Section reply_more.
Import PyStr Core.

Lemma not_send_in_logged log log_level msg ch m :
  SendMessage ch m ∉ logged log log_level msg.
Proof.
  unfold logged. destruct log.
  - by intros ?%list_elem_of_singleton.
  - by intros ?%elem_of_nil.
Qed.

(** Whatever [Reply] sends is the flattening of some message. *)
Lemma Reply_sent_is_flattened channel msg default_channel limit_lines
    max_public_lines user log log_level ch m :
  SendMessage ch m ∈ Reply channel msg default_channel limit_lines
                           max_public_lines user log log_level →
  ∃ response, m = _MakeMessage response.
Proof.
  destruct (msg_truthy msg) eqn:Hmsg;
    [|rewrite Reply_empty by done; by intros ?%elem_of_nil].
  destruct msg as [msg|]; [|done].
  destruct (destination channel default_channel) as [c|] eqn:Hdest.
  - rewrite (Reply_sends _ _ _ _ _ _ _ _ c) by done.
    intros [Hin|Hin]%elem_of_app; [by apply not_send_in_logged in Hin|].
    revert Hin. repeat case_match;
      rewrite ?elem_of_cons, ?list_elem_of_singleton;
      intros Hin; destruct_or?; simplify_eq; try (by eexists);
      by apply elem_of_nil in Hin.
  - rewrite Reply_no_destination by done.
    intros [Hin|Hin]%elem_of_app; [by apply not_send_in_logged in Hin|].
    by apply list_elem_of_singleton in Hin.
Qed.

(** X10. Overflow to the user.  When the length test fires and an overflow
    user is given, the destination gets the one line 'It's long so I sent
    it privately.' and the whole flattened message goes to the private
    channel whose [id] and [name] are both the user string as given: the
    part after a ':' is not cut off here. *)
Theorem overflow_goes_to_user channel msg default_channel limit_lines
    max_public_lines u log log_level c :
  msg_truthy (Some msg) = true →
  destination channel default_channel = Some c →
  too_long limit_lines c msg max_public_lines = true →
  u ≠ EmptyString →
  Reply channel (Some msg) default_channel limit_lines max_public_lines
        (Some u) log log_level
  = logged log log_level msg ++
    [SendMessage c ["It's long so I sent it privately."];
     SendMessage {| id := u; visibility := PRIVATE; name := u |}
                 (_MakeMessage msg)].
Proof.
  intros Hmsg Hdest Hlong Hu.
  rewrite (Reply_sends _ _ _ _ _ _ _ _ c) by done. rewrite Hlong.
  destruct msg as [text|items].
  { unfold too_long in Hlong. by rewrite andb_false_r in Hlong. }
  unfold user_truthy. by rewrite (String_eqb_false u Hu).
Qed.

Lemma overflow_goes_to_user_witness :
  let lobby := {| id := "#lobby"; visibility := PUBLIC; name := "lobby" |} in
  Reply (Some (TChannel lobby))
        (Some (MList [MText "1"; MText "2"; MText "3"; MText "4"]))
        None true 2 (Some "alice:phone") false INFO
  = [SendMessage lobby ["It's long so I sent it privately."];
     SendMessage {| id := "alice:phone"; visibility := PRIVATE;
                    name := "alice:phone" |}
                 ["1"; "2"; "3"; "4"]].
Proof.
  intros lobby.
  apply (overflow_goes_to_user (Some (TChannel lobby))
           (MList [MText "1"; MText "2"; MText "3"; MText "4"])
           None true 2 "alice:phone" false INFO lobby); try reflexivity.
  discriminate.
Defined.

(** X11. No destination.  When neither the channel nor the default channel
    is truthy ([None] or the empty string), [Reply] sends nothing: it
    writes the log record it was asked for, if any, and then the record of
    the attempt, and returns. *)
Theorem no_destination_sends_nothing channel msg default_channel limit_lines
    max_public_lines user log log_level :
  msg_truthy (Some msg) = true →
  target_truthy channel = false →
  target_truthy default_channel = false →
  Reply channel (Some msg) default_channel limit_lines max_public_lines user
        log log_level
  = logged log log_level msg ++ [LogNoChannel msg] ∧
  filter is_send
    (Reply channel (Some msg) default_channel limit_lines max_public_lines
           user log log_level) = [].
Proof.
  intros Hmsg Hchannel Hdefault.
  assert (destination channel default_channel = None) as Hdest.
  { unfold destination. rewrite Hchannel.
    destruct default_channel as [[s|c]|]; [|done..].
    unfold target_truthy in Hdefault.
    by destruct (String.eqb s EmptyString). }
  rewrite Reply_no_destination by done. split; [done|].
  by destruct log.
Qed.

Lemma no_destination_sends_nothing_witness :
  Reply (Some (TUser "")) (Some (MText "hi")) None false 6 None true INFO
  = [Log INFO (Some (MText "hi")); LogNoChannel (MText "hi")].
Proof.
  destruct (no_destination_sends_nothing (Some (TUser "")) (MText "hi") None
              false 6 None true INFO) as [Hreply _];
    [reflexivity|reflexivity|reflexivity|exact Hreply].
Defined.

(** X12. Where nothing is cut.  Without [limit_lines], or to a PRIVATE
    destination, [Reply] sends the whole flattened message in one send,
    however long it is and whether or not an overflow user is given. *)
Theorem unlimited_or_private_is_whole channel msg default_channel limit_lines
    max_public_lines user log log_level c :
  msg_truthy (Some msg) = true →
  destination channel default_channel = Some c →
  limit_lines = false ∨ visibility c = PRIVATE →
  Reply channel (Some msg) default_channel limit_lines max_public_lines user
        log log_level
  = logged log log_level msg ++ [SendMessage c (_MakeMessage msg)].
Proof.
  intros Hmsg Hdest Hwhole.
  rewrite (Reply_sends _ _ _ _ _ _ _ _ c) by done.
  assert (too_long limit_lines c msg max_public_lines = false) as ->; [|done].
  unfold too_long. destruct Hwhole as [-> | Hprivate]; [done|].
  rewrite Hprivate, bool_decide_eq_false_2 by done.
  by rewrite andb_false_r.
Qed.

Lemma unlimited_or_private_is_whole_witness :
  let bob := {| id := "bob"; visibility := PRIVATE; name := "bob" |} in
  Reply (Some (TChannel bob))
        (Some (MList [MText "1"; MText "2"; MText "3"; MText "4"]))
        None true 2 (Some "alice") false INFO
  = [SendMessage bob ["1"; "2"; "3"; "4"]].
Proof.
  intros bob.
  apply (unlimited_or_private_is_whole (Some (TChannel bob))
           (MList [MText "1"; MText "2"; MText "3"; MText "4"])
           None true 2 (Some "alice") false INFO bob); try reflexivity.
  by right.
Defined.

(** X13. The line budget of a public channel.  With [limit_lines] set and a
    limit that is not negative, a message given as a flat list of single
    lines never puts more than [max_public_lines + 1] lines on a PUBLIC
    channel in one send: the lines kept and the marker, or the one-line
    notice, or the whole message when it fits. *)
Theorem public_line_budget channel lines default_channel max_public_lines
    user log log_level ch m :
  0 ≤ max_public_lines →
  Forall single_line lines →
  SendMessage ch m ∈ Reply channel (Some (MList (MText <$> lines)))
                           default_channel true max_public_lines user
                           log log_level →
  visibility ch = PUBLIC →
  Z.of_nat (length m) ≤ max_public_lines + 1.
Proof.
  intros Hmax Hlines Hin Hpublic.
  set (msg := MList (MText <$> lines)) in *.
  destruct (msg_truthy (Some msg)) eqn:Hmsg;
    [|rewrite Reply_empty in Hin by done; by apply elem_of_nil in Hin].
  destruct (destination channel default_channel) as [c|] eqn:Hdest.
  - rewrite (Reply_sends _ _ _ _ _ _ _ _ c) in Hin by done.
    apply elem_of_app in Hin as [Hin|Hin];
      [by apply not_send_in_logged in Hin|].
    destruct (too_long true c msg max_public_lines) eqn:Hlong.
    + subst msg. cbv iota in Hin. destruct (user_truthy user).
      * apply elem_of_cons in Hin as [[= -> ->]|Hin]; [simpl; lia|].
        apply list_elem_of_singleton in Hin as [= -> ->]. done.
      * apply list_elem_of_singleton in Hin as [= -> ->].
        rewrite _MakeMessage_MList, fmap_app, concat_app.
        rewrite <- _MakeMessage_MList. unfold py_slice_to.
        rewrite (proj2 (Z.leb_le 0 max_public_lines) Hmax).
        rewrite <- fmap_take, _MakeMessage_flat by by apply Forall_take.
        rewrite length_app, length_take. simpl. lia.
    + apply list_elem_of_singleton in Hin as [= -> ->].
      subst msg. rewrite _MakeMessage_flat by done.
      unfold too_long in Hlong. rewrite Hpublic in Hlong.
      rewrite bool_decide_eq_true_2 in Hlong by done. simpl in Hlong.
      apply bool_decide_eq_false in Hlong. rewrite length_fmap in Hlong. lia.
  - rewrite Reply_no_destination in Hin by done.
    apply elem_of_app in Hin as [Hin|Hin];
      [by apply not_send_in_logged in Hin|].
    by apply list_elem_of_singleton in Hin.
Qed.

Lemma public_line_budget_witness :
  Z.of_nat (length (_MakeMessage (MList [MText "1"; MText "2"; MText "..."])))
  ≤ 2 + 1.
Proof.
  pose (lobby := {| id := "#lobby"; visibility := PUBLIC; name := "lobby" |}).
  apply (public_line_budget (Some (TChannel lobby)) ["1"; "2"; "3"; "4"] None
           2 None false INFO lobby ["1"; "2"; "..."]).
  - lia.
  - repeat constructor; unfold single_line; simpl; intros H;
      repeat (destruct H as [H|H]; [discriminate H|]); exact H.
  - apply list_elem_of_singleton. reflexivity.
  - reflexivity.
Defined.

(** X14. No line feed reaches the interface.  Whatever the arguments, every
    line of every message [Reply] hands to [SendMessage] is free of line
    feeds, the notice and the marker included. *)
Theorem sent_lines_are_single channel msg default_channel limit_lines
    max_public_lines user log log_level ch m line :
  SendMessage ch m ∈ Reply channel msg default_channel limit_lines
                           max_public_lines user log log_level →
  line ∈ m →
  single_line line.
Proof.
  intros Hin Hline.
  apply Reply_sent_is_flattened in Hin as [response ->].
  by apply (_MakeMessage_single_line response).
Qed.

Lemma sent_lines_are_single_witness : single_line "1".
Proof.
  apply (sent_lines_are_single
           (Some (TUser "bob")) (Some (MText "1
2")) None false 6 None false INFO
           {| id := "bob"; visibility := PRIVATE; name := "bob" |}
           ["1"; "2"] "1").
  - apply list_elem_of_singleton. reflexivity.
  - apply elem_of_cons. left. reflexivity.
Defined.

(** X15. What plugins send through [OutputUtil] is never cut.  The core
    builds its [OutputUtil] on [Reply] with the defaults, so [Output] sends
    the whole message in one send, to a PUBLIC channel too, and writes no
    log record; [LogAndOutput] writes its one record first and then sends
    the same. *)
Theorem output_util_sends_whole log_level channel msg c :
  msg_truthy (Some msg) = true →
  destination channel None = Some c →
  Output core_output_fn channel (Some msg)
  = [SendMessage c (_MakeMessage msg)] ∧
  LogAndOutput core_output_fn log_level channel (Some msg)
  = [Log log_level (Some msg); SendMessage c (_MakeMessage msg)].
Proof.
  intros Hmsg Hdest. unfold LogAndOutput, Output, core_output_fn.
  by rewrite (Reply_sends _ _ _ _ _ _ _ _ c) by done.
Qed.

Lemma output_util_sends_whole_witness :
  let lobby := {| id := "#lobby"; visibility := PUBLIC; name := "lobby" |} in
  LogAndOutput core_output_fn INFO (Some (TChannel lobby))
    (Some (MList [MText "1"; MText "2"; MText "3"; MText "4"; MText "5";
                  MText "6"; MText "7"]))
  = [Log INFO (Some (MList [MText "1"; MText "2"; MText "3"; MText "4";
                            MText "5"; MText "6"; MText "7"]));
     SendMessage lobby ["1"; "2"; "3"; "4"; "5"; "6"; "7"]].
Proof.
  intros lobby.
  destruct (output_util_sends_whole INFO (Some (TChannel lobby))
              (MList [MText "1"; MText "2"; MText "3"; MText "4"; MText "5";
                      MText "6"; MText "7"]) lobby) as [_ Hlog];
    [reflexivity|reflexivity|exact Hlog].
Defined.

End reply_more.

(** ** The other flattener, the reload trigger and the wiring of the core *)

Section core_more.
Import PyStr Core RequestTracker.

(** X16. The two flatteners agree.  [_GetAlternateTextList] gives, for a
    text and for a flat list of texts, the lines [_MakeMessage] gives for
    the same value: every text split at its line feeds, in order.  No line
    of the result has a line feed in it, and a list of single lines comes
    back unchanged. *)
Theorem alternate_text_list_agrees value :
  _GetAlternateTextList value = _MakeMessage (as_message value) ∧
  (∀ line, line ∈ _GetAlternateTextList value → single_line line) ∧
  (∀ texts, value = TextList texts → Forall single_line texts →
            _GetAlternateTextList value = texts).
Proof.
  assert (_GetAlternateTextList value = _MakeMessage (as_message value))
    as Hagree.
  { destruct value as [text|texts]; [done|].
    unfold _GetAlternateTextList, as_message.
    rewrite _MakeMessage_MList. f_equal.
    induction texts as [|text texts IH]; [done|].
    rewrite !fmap_cons, IH. by rewrite _MakeMessage_MText. }
  split_and!.
  - done.
  - intros line. rewrite Hagree. apply _MakeMessage_single_line.
  - intros texts -> Htexts. rewrite Hagree. by apply _MakeMessage_flat.
Qed.

Lemma alternate_text_list_agrees_witness :
  _GetAlternateTextList (TextList ["one"; "two"]) = ["one"; "two"].
Proof.
  destruct (alternate_text_list_agrees (TextList ["one"; "two"]))
    as (_ & _ & Hflat).
  apply (Hflat ["one"; "two"]); [reflexivity|].
  repeat constructor; unfold single_line; simpl; intros H;
    repeat (destruct H as [H|H]; [discriminate H|]); exact H.
Defined.

(** With the runner idle, the objects scheduled are the attribute values
    that have a [ReloadData], in order. *)
Lemma ReloadData_idle_scheduled self :
  runner_IsIdle self = true →
  scheduled (ReloadData self).2
  = filter (λ obj, has_ReloadData obj = true) ((__dict__ self).*2).
Proof.
  intros Hidle. unfold ReloadData. rewrite Hidle. cbn [negb snd].
  unfold scheduled. cbn [flat_map app].
  induction (__dict__ self) as [|[attr obj] attrs IH]; [done|].
  cbn [flat_map fmap list_fmap snd]. rewrite flat_map_app, IH.
  destruct (has_ReloadData obj) eqn:Hobj.
  - by rewrite filter_cons_True by done.
  - by rewrite filter_cons_False by (by rewrite Hobj).
Qed.

(** X17. Reloads are scheduled per attribute, not per object.  With the
    runner idle, an object that has a [ReloadData] is handed to [RunAsync]
    once for every attribute of the core that holds it: an object held
    twice (as [store] and [cached_store] are the same object when no cached
    type is configured) is reloaded twice in one sweep. *)
Theorem reload_once_per_attribute self obj :
  runner_IsIdle self = true →
  has_ReloadData obj = true →
  times_scheduled obj (ReloadData self).2 = times_held obj self.
Proof.
  intros Hidle Hobj. unfold times_scheduled, times_held.
  rewrite ReloadData_idle_scheduled by done.
  induction (__dict__ self) as [|[attr obj'] attrs IH]; [done|].
  cbn [fmap list_fmap snd].
  destruct (decide (obj' = obj)) as [->|Hne].
  - rewrite filter_cons_True by done.
    rewrite !filter_cons_True by done. simpl. by rewrite <- IH.
  - rewrite (filter_cons_False (λ attr0 : string * Obj, attr0.2 = obj))
      by done.
    rewrite <- IH. destruct (has_ReloadData obj') eqn:Hobj'.
    + rewrite filter_cons_True by done. by rewrite filter_cons_False by done.
    + by rewrite filter_cons_False by (by rewrite Hobj').
Qed.

Lemma reload_once_per_attribute_witness :
  let store := {| oid := 1; class_name := "RedisStore";
                  has_ReloadData := true |} in
  times_scheduled store
    (ReloadData {| runner_IsIdle := true;
                   __dict__ := [("store", store); ("cached_store", store)] |}).2
  = 2%nat.
Proof.
  intros store.
  rewrite (reload_once_per_attribute
             {| runner_IsIdle := true;
                __dict__ := [("store", store); ("cached_store", store)] |}
             store); reflexivity.
Defined.

Lemma delivered_app tr1 tr2 :
  delivered (tr1 ++ tr2) = delivered tr1 ++ delivered tr2.
Proof. apply flat_map_app. Qed.

(** X18. The acknowledgement, through the core.  The tracker of the core
    replies through [Reply], which drops an empty message.  So when a
    request is confirmed in time, the action is invoked in any case, but
    what the user is sent depends on the dict: with 'action_text' set to
    the empty string or to [None] nothing is sent at all; without
    'action_text' the user is sent the one line 'Confirmation accepted.'
    on the private channel Reply makes of the user's name. *)
Theorem acknowledgement_through_core st user d timestamp action parse now
    user_msg :
  stored st user d timestamp action parse →
  parse user_msg = true →
  (now - timestamp < _REQUEST_TIMEOUT_SEC)%Qc →
  ∃ st',
    ResolveRequest now user user_msg st = (Ok tt, st') ∧
    calls (trace st') = calls (trace st) ++ [(action, user, d)] ∧
    (heap_at st d !! "action_text" = Some (VStr "") ∨
     heap_at st d !! "action_text" = Some VNone →
     delivered (trace st') = delivered (trace st)) ∧
    (heap_at st d !! "action_text" = None →
     user ≠ EmptyString →
     delivered (trace st')
     = delivered (trace st) ++
       [SendMessage {| id := split_first COLON user; visibility := PRIVATE;
                       name := user |}
                    ["Confirmation accepted."]]).
Proof.
  intros Hstored Hparse Hyoung. eexists.
  split; [by eapply ResolveRequest_stored|].
  unfold resolve_events. rewrite Hparse, (Qc_lt_ge_false _ _ Hyoung).
  cbn [negb trace]. split_and!.
  - rewrite calls_app. simpl. done.
  - intros [-> | ->]; rewrite delivered_app; simpl; by rewrite app_nil_r.
  - intros -> Huser. rewrite delivered_app. f_equal.
    change (core_reply_fn user (Some (MText "Confirmation accepted.")) ++ []
            = [SendMessage {| id := split_first COLON user;
                              visibility := PRIVATE; name := user |}
                           ["Confirmation accepted."]]).
    rewrite app_nil_r. unfold core_reply_fn.
    rewrite (Reply_sends _ _ _ _ _ _ _ _
               {| id := split_first COLON user; visibility := PRIVATE;
                  name := user |}); [done|done|].
    unfold destination, target_truthy.
    rewrite (String_eqb_false user Huser). cbn [negb].
    by rewrite (String_eqb_false user Huser).
Qed.

Lemma acknowledgement_through_core_witness :
  let st := accepted (State {[ 1%nat := {[ "action_text" := VStr "" ]} ]} ∅ [])
                     (Qc_of_Z 100) "bob" "a refund" 1%nat 7%nat None in
  ∃ st',
    ResolveRequest (Qc_of_Z 130) "bob" "yes" st = (Ok tt, st') ∧
    calls (trace st') = calls (trace st) ++ [(7%nat, "bob", 1%nat)] ∧
    delivered (trace st') = delivered (trace st).
Proof.
  intros st.
  destruct (acknowledgement_through_core st "bob" 1%nat (Qc_of_Z 100) 7%nat
              default_parse_fn (Qc_of_Z 130) "yes")
    as (st' & Hrun & Hcalls & Hsilent & _).
  - repeat split.
  - reflexivity.
  - reflexivity.
  - exists st'. split_and!; [exact Hrun|exact Hcalls|].
    apply Hsilent. left. reflexivity.
Defined.

End core_more.

(** ** The Discord interface *)

Section discord.
Import PyStr Core Discord.

Lemma find_member_app user ms1 ms2 :
  find_member user (ms1 ++ ms2)
  = match find_member user ms1 with
    | Some m => Some m
    | None => find_member user ms2
    end.
Proof.
  unfold find_member. induction ms1 as [|m ms1 IH]; [done|]. simpl.
  by destruct (String.eqb (member_name m) user).
Qed.

(** The loop over the servers is one search through all members. *)
Lemma _FindDiscordUser_all_members self user :
  _FindDiscordUser self user = find_member user (all_members self).
Proof.
  unfold _FindDiscordUser, all_members.
  induction (servers self) as [|server rest IH]; [done|].
  cbn [find_in_servers flat_map]. rewrite find_member_app, IH. done.
Qed.

Lemma find_member_Some user ms m :
  find_member user ms = Some m ↔
  ∃ before after,
    ms = before ++ m :: after ∧ member_name m = user ∧
    Forall (λ m', member_name m' ≠ user) before.
Proof.
  unfold find_member. induction ms as [|m0 ms IH]; simpl.
  - split; [done|]. intros (before & after & Hms & _).
    by destruct before.
  - destruct (String.eqb_spec (member_name m0) user) as [Hname|Hname].
    + split.
      * intros [= ->]. by exists [], ms.
      * intros (before & after & Hms & Hm & Hbefore).
        destruct before as [|m1 before]; [by injection Hms as ->|].
        injection Hms as -> _. by apply Forall_cons_1 in Hbefore as [? _].
    + rewrite IH. split.
      * intros (before & after & -> & Hm & Hbefore).
        exists (m0 :: before), after. split_and!; [done..|].
        by constructor.
      * intros (before & after & Hms & Hm & Hbefore).
        destruct before as [|m1 before].
        -- injection Hms as -> _. done.
        -- injection Hms as -> ->. apply Forall_cons_1 in Hbefore as [_ ?].
           by exists before, after.
Qed.

Lemma find_member_None user ms :
  find_member user ms = None ↔ Forall (λ m, member_name m ≠ user) ms.
Proof.
  unfold find_member. induction ms as [|m ms IH]; simpl.
  - split; [by constructor|done].
  - destruct (String.eqb_spec (member_name m) user) as [Hname|Hname].
    + split; [done|]. by intros [? _]%Forall_cons_1.
    + rewrite IH. split.
      * by constructor.
      * by intros [_ ?]%Forall_cons_1.
Qed.

(** X19. [_FindDiscordUser] finds the first member of that name.  It
    returns a member exactly when that member bears the name and no member
    before it does, in the order of the servers and of their members; it
    returns [None] exactly when no member of any server bears the name. *)
Theorem find_discord_user_first self user :
  (∀ m, _FindDiscordUser self user = Some m ↔
        ∃ before after,
          all_members self = before ++ m :: after ∧
          member_name m = user ∧
          Forall (λ m', member_name m' ≠ user) before) ∧
  (_FindDiscordUser self user = None ↔
   Forall (λ m, member_name m ≠ user) (all_members self)).
Proof.
  rewrite _FindDiscordUser_all_members. split.
  - intros m. apply find_member_Some.
  - apply find_member_None.
Qed.

Lemma transport_app self events1 events2 :
  transport self (events1 ++ events2)
  = transport self events1 ++ transport self events2.
Proof. apply flat_map_app. Qed.

Lemma transport_logged self log log_level msg :
  transport self (logged log log_level msg) = [].
Proof. by destruct log. Qed.

(** The core puts no cards in a message: the interface reads its lines. *)
Lemma text_messages_entries message :
  text_messages (entries message) = message.
Proof.
  unfold text_messages, entries.
  induction message as [|line message IH]; [done|].
  rewrite fmap_cons. cbn [flat_map app]. by rewrite IH.
Qed.

(** X20. A reply on Discord.  For a message that [Reply] sends whole to a
    channel the client knows, the interface schedules one [_SendMessage]
    task, on that channel, with the flattened lines joined by line feeds as
    its text.  For a message given as a text that is the text itself,
    character for character: splitting and joining cancel. *)
Theorem reply_reaches_discord self channel msg default_channel limit_lines
    max_public_lines user log log_level c dc :
  msg_truthy (Some msg) = true →
  destination channel default_channel = Some c →
  too_long limit_lines c msg max_public_lines = false →
  get_channel self (id c) = Some dc →
  transport self (Reply channel (Some msg) default_channel limit_lines
                        max_public_lines user log log_level)
  = [SendTask (ToChannel dc) (join LF (_MakeMessage msg))] ∧
  (∀ text, msg = MText text → join LF (_MakeMessage msg) = text).
Proof.
  intros Hmsg Hdest Hshort Hknown. split.
  - rewrite (Reply_sends _ _ _ _ _ _ _ _ c) by done. rewrite Hshort.
    rewrite transport_app, transport_logged. cbn [app transport flat_map].
    unfold SendMessage. rewrite Hknown, text_messages_entries. done.
  - intros text ->. apply join_split.
Qed.

Lemma reply_reaches_discord_witness :
  let lobby := {| id := "42"; visibility := PUBLIC; name := "lobby" |} in
  let dc := {| channel_id := "42"; channel_name := "lobby" |} in
  let self := {| get_channel := λ i, if String.eqb i "42" then Some dc
                                     else None;
                 servers := [] |} in
  transport self (Reply (Some (TChannel lobby)) (Some (MText "one
two")) None true 6 None true INFO)
  = [SendTask (ToChannel dc) "one
two"].
Proof.
  intros lobby dc self.
  destruct (reply_reaches_discord self (Some (TChannel lobby)) (MText "one
two") None true 6 None true INFO lobby dc) as [Hsend _];
    [reflexivity|reflexivity|reflexivity|reflexivity|exact Hsend].
Defined.

(** X21. A reply to a user on Discord.  For a message replied to a user
    given as a bare string, the one [_SendMessage] task is for the first
    member whose name is the part of the string before its first ':', when
    the client knows no channel of that id; when there is no such member
    either, no task is scheduled and the message is dropped. *)
Theorem user_reply_reaches_discord self s msg default_channel limit_lines
    max_public_lines user log log_level :
  s ≠ EmptyString →
  msg_truthy (Some msg) = true →
  get_channel self (split_first COLON s) = None →
  transport self (Reply (Some (TUser s)) (Some msg) default_channel
                        limit_lines max_public_lines user log log_level)
  = match _FindDiscordUser self (split_first COLON s) with
    | Some member => [SendTask (ToMember member)
                               (join LF (_MakeMessage msg))]
    | None => []
    end.
Proof.
  intros Hs Hmsg Hunknown.
  set (c := {| id := split_first COLON s; visibility := PRIVATE; name := s |}).
  rewrite (Reply_sends _ _ _ _ _ _ _ _ c); [|done|].
  - assert (too_long limit_lines c msg max_public_lines = false) as ->.
    { unfold too_long. cbn [visibility c].
      rewrite bool_decide_eq_false_2 by done. by rewrite andb_false_r. }
    rewrite transport_app, transport_logged. cbn [app transport flat_map].
    unfold SendMessage. cbn [id c]. rewrite Hunknown, text_messages_entries.
    by destruct (_FindDiscordUser self (split_first COLON s)).
  - unfold destination, target_truthy.
    rewrite (String_eqb_false s Hs). cbn [negb].
    by rewrite (String_eqb_false s Hs).
Qed.

Lemma user_reply_reaches_discord_witness :
  let bob := {| member_name := "bob"; member_bot := false |} in
  let self := {| get_channel := λ _, None;
                 servers := [ {| members := [] |};
                              {| members := [bob] |} ] |} in
  transport self (Reply (Some (TUser "bob:phone")) (Some (MText "hi")) None
                        false 6 None false INFO)
  = [SendTask (ToMember bob) "hi"].
Proof.
  intros bob self.
  rewrite (user_reply_reaches_discord self "bob:phone" (MText "hi") None
             false 6 None false INFO); [reflexivity|discriminate|..];
    reflexivity.
Defined.

Lemma tracked_nick_track nick member :
  tracked_nick (track nick member) = Some nick.
Proof. unfold track. by destruct (member_bot member). Qed.

(** X22. [Who] is [WhoAll] for one name.  [WhoAll] does for every member
    of every server what [on_member_join] does for a joining one: one call
    on the user tracker, [AddBot] or [AddHuman].  [Who] makes, in the same
    order, exactly the calls among these that are for the given name; when
    no member bears the name it makes none. *)
Theorem who_is_whoall_for_one_name self user :
  WhoAll self = flat_map on_member_join (all_members self) ∧
  Who self user = filter (λ e, tracked_nick e = Some user) (WhoAll self) ∧
  (Forall (λ m, member_name m ≠ user) (all_members self) →
   Who self user = []).
Proof.
  split.
  { unfold WhoAll, all_members, on_member_join.
    induction (servers self) as [|server rest IH]; [done|].
    cbn [flat_map]. by rewrite flat_map_app, IH. }
  unfold Who, WhoAll, all_members.
  induction (servers self) as [|server rest [IH1 IH2]]; [done|].
  cbn [flat_map].
  assert (∀ ms,
    flat_map (λ member, if String.eqb (member_name member) user
                        then [track user member] else []) ms
    = filter (λ e, tracked_nick e = Some user)
             (flat_map (λ member, [track (member_name member) member]) ms) ∧
    (Forall (λ m, member_name m ≠ user) ms →
     flat_map (λ member, if String.eqb (member_name member) user
                         then [track user member] else []) ms = []))
    as Hmembers.
  { induction ms as [|m ms [IHm1 IHm2]]; [done|]. cbn [flat_map app].
    destruct (String.eqb_spec (member_name m) user) as [Hname|Hname].
    - split.
      + rewrite filter_cons_True by (rewrite tracked_nick_track; congruence).
        rewrite Hname, IHm1. done.
      + by intros [? _]%Forall_cons_1.
    - split.
      + rewrite filter_cons_False
          by (rewrite tracked_nick_track; congruence).
        by rewrite IHm1.
      + intros [_ ?]%Forall_cons_1. by apply IHm2. }
  destruct (Hmembers (members server)) as [Hserver1 Hserver2]. split.
  - by rewrite list.filter_app, Hserver1, IH1.
  - intros [? ?]%Forall_app. rewrite Hserver2, IH2; done.
Qed.

Lemma who_is_whoall_for_one_name_witness :
  let self := {| get_channel := λ _, None;
                 servers := [ {| members := [ {| member_name := "bob";
                                                 member_bot := false |} ] |} ]
              |} in
  Who self "eve" = [].
Proof.
  intros self.
  destruct (who_is_whoall_for_one_name self "eve") as (_ & _ & Hnone).
  apply Hnone. repeat constructor. discriminate.
Defined.

End discord.
